(** * Portfolio front end: particle field and 3D room

    A shallow embedding of the two stateful cores of the site:
    - the canvas particle system of the page script ([Particle], [initParticles],
      the per-frame [animate] with its proximity connections), and
    - the light toggle and the build-once guard of [room3d.js].

    JavaScript numbers are IEEE-754 binary64 values; they are embedded as the
    kernel's primitive floats, so every definition evaluates exactly as the
    script does.  The arithmetic is reached through the interface [Number], which
    has a second instance over the real numbers: geometric statements (distances,
    magnitudes, limits) are stated for the same definitions read in exact
    arithmetic. *)

From Stdlib Require Import ZArith List Bool Lia Floats Reals Lra Psatz.
From Stdlib Require String Ascii.
From stdpp Require Import base option list.
Import ListNotations.

(** ** JavaScript numbers *)

Module Js.

(** The operations on numbers that the scripts use. [lit m k] is the decimal
    literal [m * 10^-k]; [max] and [min] are [Math.max] and [Math.min];
    [ltb], [leb] and [eqb] are [<], [<=] and [===] on numbers. *)
Class Number (num : Type) : Type := {
  lit : Z -> nat -> num;
  add : num -> num -> num;
  sub : num -> num -> num;
  mul : num -> num -> num;
  div : num -> num -> num;
  sqrt : num -> num;
  ltb : num -> num -> bool;
  leb : num -> num -> bool;
  eqb : num -> num -> bool;
  max : num -> num -> num;
  min : num -> num -> num
}.

Definition int {num} `{Number num} (z : Z) : num := lit z 0.
Definition gtb {num} `{Number num} (a b : num) : bool := ltb b a.

(** *** IEEE-754 binary64 *)

Definition float_of_Z (z : Z) : float :=
  match z with
  | Z0 => 0%float
  | Zpos _ => PrimFloat.of_uint63 (Uint63.of_Z z)
  | Zneg _ => PrimFloat.opp (PrimFloat.of_uint63 (Uint63.of_Z (Z.opp z)))
  end.

(** A decimal literal denotes the double nearest to its value; for the
    literals of the scripts that is the correctly rounded quotient of two
    exactly representable integers. *)
Definition float_lit (m : Z) (k : nat) : float :=
  match k with
  | O => float_of_Z m
  | _ => PrimFloat.div (float_of_Z m) (float_of_Z (10 ^ Z.of_nat k))
  end.

(** [Math.max]: NaN if either argument is NaN; [+0] is larger than [-0]. *)
Definition float_max (a b : float) : float :=
  if PrimFloat.is_nan a || PrimFloat.is_nan b then PrimFloat.nan
  else if PrimFloat.ltb a b then b
  else if PrimFloat.ltb b a then a
  else if PrimFloat.get_sign a then b else a.

(** [Math.min]: NaN if either argument is NaN; [-0] is smaller than [+0]. *)
Definition float_min (a b : float) : float :=
  if PrimFloat.is_nan a || PrimFloat.is_nan b then PrimFloat.nan
  else if PrimFloat.ltb a b then a
  else if PrimFloat.ltb b a then b
  else if PrimFloat.get_sign a then a else b.

#[export] Instance float_Number : Number float := {|
  lit := float_lit;
  add := PrimFloat.add;
  sub := PrimFloat.sub;
  mul := PrimFloat.mul;
  div := PrimFloat.div;
  sqrt := PrimFloat.sqrt;
  ltb := PrimFloat.ltb;
  leb := PrimFloat.leb;
  eqb := PrimFloat.eqb;
  max := float_max;
  min := float_min
|}.

(** *** Exact arithmetic *)

Definition real_lit (m : Z) (k : nat) : R := (IZR m / IZR (10 ^ Z.of_nat k))%R.
Definition real_ltb (a b : R) : bool := if Rlt_dec a b then true else false.
Definition real_leb (a b : R) : bool := if Rle_dec a b then true else false.
Definition real_eqb (a b : R) : bool := if Req_dec_T a b then true else false.

#[export] Instance real_Number : Number R := {|
  lit := real_lit;
  add := Rplus;
  sub := Rminus;
  mul := Rmult;
  div := Rdiv;
  sqrt := R_sqrt.sqrt;
  ltb := real_ltb;
  leb := real_leb;
  eqb := real_eqb;
  max := Rmax;
  min := Rmin
|}.

End Js.

Declare Scope js_scope.
Delimit Scope js_scope with js.
Infix "+" := Js.add : js_scope.
Infix "-" := Js.sub : js_scope.
Infix "*" := Js.mul : js_scope.
Infix "/" := Js.div : js_scope.
Infix "<?" := Js.ltb : js_scope.
Infix "<=?" := Js.leb : js_scope.
Infix ">?" := Js.gtb (at level 70) : js_scope.
Infix "=?" := Js.eqb : js_scope.

(** ** The particle system *)

Module Particles.
Section WithNumber.
Context {num : Type} `{Js.Number num}.
Local Open Scope js_scope.
Import Js.

(** The canvas element, as far as the particles read it. *)
Record Canvas : Type := { width : num; height : num }.

(** [const mouse = { x: null, y: null }] *)
Record Mouse : Type := { mouse_x : option num; mouse_y : option num }.

Record Particle : Type := {
  x : num;
  y : num;
  size : num;
  speedX : num;
  speedY : num;
  opacity : num
}.

(** [Particle.update(mouse)]; [canvas] is the shared canvas object that
    [this.canvas] refers to, in its state at the time of the call. *)
Definition update (canvas : Canvas) (mouse : Mouse) (p : Particle) : Particle :=
  let x1 := x p + speedX p in
  let y1 := y p + speedY p in
  (* Mouse interaction *)
  let '(x2, y2) :=
    match mouse_x mouse, mouse_y mouse with
    | Some mx, Some my =>
        let dx := x1 - mx in
        let dy := y1 - my in
        let dist := sqrt (dx * dx + dy * dy) in
        if dist <? int 120 then
          let force := (int 120 - dist) / int 120 in
          (x1 + (dx / dist) * force * int 2, y1 + (dy / dist) * force * int 2)
        else (x1, y1)
    | _, _ => (x1, y1)
    end in
  (* Bounds *)
  let sx := if (x2 <? int 0) || (x2 >? width canvas)
            then speedX p * int (-1) else speedX p in
  let sy := if (y2 <? int 0) || (y2 >? height canvas)
            then speedY p * int (-1) else speedY p in
  {| x := max (int 0) (min (width canvas) x2);
     y := max (int 0) (min (height canvas) y2);
     size := size p;
     speedX := sx;
     speedY := sy;
     opacity := opacity p |}.

(** The same method with every division guarded: [None] as soon as a
    division is reached whose divisor is zero. *)
Definition safe_div (a b : num) : option num :=
  if b =? int 0 then None else Some (a / b).

Definition update_checked (canvas : Canvas) (mouse : Mouse) (p : Particle)
  : option Particle :=
  let x1 := x p + speedX p in
  let y1 := y p + speedY p in
  pos ← match mouse_x mouse, mouse_y mouse with
        | Some mx, Some my =>
            let dx := x1 - mx in
            let dy := y1 - my in
            let dist := sqrt (dx * dx + dy * dy) in
            if dist <? int 120 then
              force ← safe_div (int 120 - dist) (int 120);
              ux ← safe_div dx dist;
              uy ← safe_div dy dist;
              Some (x1 + ux * force * int 2, y1 + uy * force * int 2)
            else Some (x1, y1)
        | _, _ => Some (x1, y1)
        end;
  let '(x2, y2) := pos in
  let sx := if (x2 <? int 0) || (x2 >? width canvas)
            then speedX p * int (-1) else speedX p in
  let sy := if (y2 <? int 0) || (y2 >? height canvas)
            then speedY p * int (-1) else speedY p in
  Some {| x := max (int 0) (min (width canvas) x2);
          y := max (int 0) (min (height canvas) y2);
          size := size p;
          speedX := sx;
          speedY := sy;
          opacity := opacity p |}.

(** [Math.sqrt(dx * dx + dy * dy)], the distance both the repulsion and the
    connection pass compute. *)
Definition distance (ax ay bx by_ : num) : num :=
  let dx := ax - bx in
  let dy := ay - by_ in
  sqrt (dx * dx + dy * dy).

(** Distance from the pointer position [(mx, my)] to a particle. *)
Definition pointer_distance (mx my : num) (p : Particle) : num :=
  distance (x p) (y p) mx my.

(** The position lies in [[0, width] x [0, height]]. *)
Definition in_bounds (c : Canvas) (p : Particle) : bool :=
  (int 0 <=? x p) && (x p <=? width c) && (int 0 <=? y p) && (y p <=? height c).

(** *** Drawing *)

Inductive DrawCmd : Type :=
| ClearRect (w h : num)
| FillCircle (cx cy radius alpha : num)
| StrokeLine (x1 y1 x2 y2 alpha : num).

(** [Particle.draw(ctx)] *)
Definition draw (p : Particle) : DrawCmd :=
  FillCircle (x p) (y p) (size p) (opacity p).

(** The alpha of a connecting line: [0.08 * (1 - dist / 150)]. *)
Definition connection_alpha (dist : num) : num :=
  lit 8 2 * (int 1 - dist / int 150).

(** Body of the inner connection loop for the particles [pi] and [pj]. *)
Definition connect (pi pj : Particle) : list DrawCmd :=
  let dx := x pi - x pj in
  let dy := y pi - y pj in
  let dist := sqrt (dx * dx + dy * dy) in
  if dist <? int 150 then
    [StrokeLine (x pi) (y pi) (x pj) (y pj) (connection_alpha dist)]
  else [].

(** The iterations of
    [for (i = 0; i < n; i++) for (j = i + 1; j < n; j++)], in order. *)
Definition connection_pairs (n : nat) : list (nat * nat) :=
  flat_map (fun i => List.map (fun j => (i, j)) (seq (i + 1) (n - (i + 1))))
           (seq 0 n).

Definition connections (ps : list Particle) : list DrawCmd :=
  flat_map (fun ij =>
              match nth_error ps (fst ij), nth_error ps (snd ij) with
              | Some pi, Some pj => connect pi pj
              | _, _ => []
              end)
           (connection_pairs (length ps)).

(** *** The field: the closure state of [initParticles] *)

Record Window : Type := { innerWidth : num; innerHeight : num }.

Record Field : Type := {
  canvas : Canvas;
  particles : list Particle;
  mouse : Mouse
}.

(** [Particle.reset()]: six draws of [Math.random()], here the values
    [rand k .. rand (k + 5)] of the random stream. *)
Definition reset (c : Canvas) (rand : nat -> num) (k : nat) : Particle :=
  {| x := rand k * width c;
     y := rand (k + 1)%nat * height c;
     size := rand (k + 2)%nat * int 2 + lit 5 1;
     speedX := (rand (k + 3)%nat - lit 5 1) * lit 8 1;
     speedY := (rand (k + 4)%nat - lit 5 1) * lit 8 1;
     opacity := rand (k + 5)%nat * lit 5 1 + lit 1 1 |}.

(** [resize()] *)
Definition resize (w : Window) : Canvas :=
  {| width := innerWidth w; height := innerHeight w |}.

(** [for (let i = 0; i < particleCount; i++) particles.push(new Particle(canvas))] *)
Definition spawn (c : Canvas) (rand : nat -> num) (particleCount : nat)
  : list Particle :=
  fold_left (fun ps i => ps ++ [reset c rand (6 * i)%nat])
            (seq 0 particleCount) [].

(** [initParticles()]; [has_canvas] tells whether the canvas element exists. *)
Definition initParticles (has_canvas : bool) (w : Window) (rand : nat -> num)
  : option Field :=
  if negb has_canvas then None
  else
    let isMobile := innerWidth w <? int 768 in
    let particleCount := if isMobile then 40%nat else 80%nat in
    let c := resize w in
    Some {| canvas := c;
            particles := spawn c rand particleCount;
            mouse := {| mouse_x := None; mouse_y := None |} |}.

(** What happens to the field after initialization. *)
Inductive Event : Type :=
| Resize (w : Window)
| MouseMove (clientX clientY : num)
| MouseLeave
| Frame.

(** [animate()]: one frame. *)
Definition animate (f : Field) : Field * list DrawCmd :=
  let ps := List.map (update (canvas f) (mouse f)) (particles f) in
  ({| canvas := canvas f; particles := ps; mouse := mouse f |},
   ClearRect (width (canvas f)) (height (canvas f))
     :: List.map draw ps ++ connections ps).

Definition handle (f : Field) (e : Event) : Field :=
  match e with
  | Resize w =>
      {| canvas := resize w; particles := particles f; mouse := mouse f |}
  | MouseMove cx cy =>
      {| canvas := canvas f; particles := particles f;
         mouse := {| mouse_x := Some cx; mouse_y := Some cy |} |}
  | MouseLeave =>
      {| canvas := canvas f; particles := particles f;
         mouse := {| mouse_x := None; mouse_y := None |} |}
  | Frame => fst (animate f)
  end.

Definition run (f : Field) (es : list Event) : Field := fold_left handle es f.

(** *** The steps of [update] as the specification lists them *)

Definition step_velocity (p : Particle) : Particle :=
  {| x := x p + speedX p; y := y p + speedY p; size := size p;
     speedX := speedX p; speedY := speedY p; opacity := opacity p |}.

(** The pointer, present when both coordinates are. *)
Definition pointer (m : Mouse) : option (num * num) :=
  match mouse_x m, mouse_y m with
  | Some mx, Some my => Some (mx, my)
  | _, _ => None
  end.

(** The normalized vector from [(mx, my)] to the particle. *)
Definition unit_from (mx my : num) (p : Particle) : num * num :=
  let d := pointer_distance mx my p in
  ((x p - mx) / d, (y p - my) / d).

(** The repulsive displacement: the unit vector scaled by the force and by 2. *)
Definition displacement (mx my : num) (p : Particle) : num * num :=
  let d := pointer_distance mx my p in
  let force := (int 120 - d) / int 120 in
  let u := unit_from mx my p in
  (fst u * force * int 2, snd u * force * int 2).

Definition step_repel (m : Mouse) (p : Particle) : Particle :=
  match pointer m with
  | Some (mx, my) =>
      if pointer_distance mx my p <? int 120 then
        let d := displacement mx my p in
        {| x := x p + fst d; y := y p + snd d; size := size p;
           speedX := speedX p; speedY := speedY p; opacity := opacity p |}
      else p
  | None => p
  end.

Definition step_reflect (c : Canvas) (p : Particle) : Particle :=
  {| x := x p; y := y p; size := size p;
     speedX := if (x p <? int 0) || (x p >? width c)
               then speedX p * int (-1) else speedX p;
     speedY := if (y p <? int 0) || (y p >? height c)
               then speedY p * int (-1) else speedY p;
     opacity := opacity p |}.

Definition step_clamp (c : Canvas) (p : Particle) : Particle :=
  {| x := max (int 0) (min (width c) (x p));
     y := max (int 0) (min (height c) (y p));
     size := size p; speedX := speedX p; speedY := speedY p;
     opacity := opacity p |}.

Definition update_steps (c : Canvas) (m : Mouse) (p : Particle) : Particle :=
  step_clamp c (step_reflect c (step_repel m (step_velocity p))).

End WithNumber.
End Particles.

(** ** The 3D room ([room3d.js]) *)

Module Room.
Import Js.

Definition num (m : Z) (k : nat) : float := float_lit m k.

(** *** Objects *)

Inductive LightKind : Type := AmbientLight | PointLight | DirectionalLight.

Record Light : Type := {
  kind : LightKind;
  color : Z;
  intensity : float
}.

(** The groups of static meshes returned by the [create...] functions that
    touch no module variable. *)
Inductive Part : Type :=
| RoomShell | Desk | Monitor | SecondMonitor | Peripherals | Chair
| Posters | Bookshelf | Decorations | FloorMat | Bed
| MordekaiserFigurine | HollowKnightFigurine.

(** Scene-graph nodes. A light node holds the address of the light object, which
    the light registry shares. *)
#[warnings="-register-all"] Inductive Object3D : Type :=
| Static (built : Part)
| Fixture
| LightNode (address : nat)
| Group (children : list Object3D).

Record Scene : Type := {
  background : Z;
  fog : Z * float * float;
  children : list Object3D
}.

Record Camera : Type := {
  fov : float;
  aspect : float;
  near : float;
  far : float;
  position : float * float * float
}.

Record Renderer : Type := {
  domElement : nat;
  rendererSize : float * float;
  pixelRatio : float;
  toneMappingExposure : float
}.

Record Controls : Type := {
  dampingFactor : float;
  maxPolarAngleOverPi : float;
  minPolarAngle : float;
  minDistance : float;
  maxDistance : float;
  target : float * float * float;
  panSpeed : float
}.

(** [let roomLights = { ambient: null, ... }]: each slot is null or the address
    of a light. *)
Record RoomLights : Type := {
  ambient : option nat;
  deskLight : option nat;
  monitorLight : option nat;
  ledLight : option nat;
  ceilingLight : option nat;
  fillLight : option nat
}.

(** The container element handed to [init3DRoom]. *)
Record Container : Type := {
  elementId : nat;
  clientWidth : float;
  clientHeight : float
}.

(** *** State: the module variables, the light objects, the page *)

Record World : Type := {
  scene : option Scene;
  camera : option Camera;
  renderer : option Renderer;
  controls : option Controls;
  animationId : option nat;
  isInitialized : bool;
  roomLights : RoomLights;
  lightsOn : bool;
  (* light objects, by address *)
  lights : list Light;
  (* the page: canvases appended to containers (container, canvas), the
     containers captured by registered resize listeners, the number of
     animation frames requested and of renderers created so far *)
  attached : list (nat * nat);
  resizeListeners : list nat;
  frameRequests : nat;
  renderersCreated : nat;
  devicePixelRatio : float
}.

(** The module as loaded, on a page with the given pixel ratio. *)
Definition loaded (dpr : float) : World :=
  {| scene := None; camera := None; renderer := None; controls := None;
     animationId := None; isInitialized := false;
     roomLights := {| ambient := None; deskLight := None; monitorLight := None;
                      ledLight := None; ceilingLight := None; fillLight := None |};
     lightsOn := true;
     lights := []; attached := []; resizeListeners := []; frameRequests := 0;
     renderersCreated := 0; devicePixelRatio := dpr |}.

Definition set_scene (v : option Scene) (w : World) : World :=
  {| scene := v; camera := camera w; renderer := renderer w;
     controls := controls w; animationId := animationId w;
     isInitialized := isInitialized w; roomLights := roomLights w;
     lightsOn := lightsOn w; lights := lights w; attached := attached w;
     resizeListeners := resizeListeners w; frameRequests := frameRequests w;
     renderersCreated := renderersCreated w;
     devicePixelRatio := devicePixelRatio w |}.

Definition set_camera (v : option Camera) (w : World) : World :=
  {| scene := scene w; camera := v; renderer := renderer w;
     controls := controls w; animationId := animationId w;
     isInitialized := isInitialized w; roomLights := roomLights w;
     lightsOn := lightsOn w; lights := lights w; attached := attached w;
     resizeListeners := resizeListeners w; frameRequests := frameRequests w;
     renderersCreated := renderersCreated w;
     devicePixelRatio := devicePixelRatio w |}.

Definition set_renderer (v : option Renderer) (w : World) : World :=
  {| scene := scene w; camera := camera w; renderer := v;
     controls := controls w; animationId := animationId w;
     isInitialized := isInitialized w; roomLights := roomLights w;
     lightsOn := lightsOn w; lights := lights w; attached := attached w;
     resizeListeners := resizeListeners w; frameRequests := frameRequests w;
     renderersCreated := renderersCreated w;
     devicePixelRatio := devicePixelRatio w |}.

Definition set_controls (v : option Controls) (w : World) : World :=
  {| scene := scene w; camera := camera w; renderer := renderer w;
     controls := v; animationId := animationId w;
     isInitialized := isInitialized w; roomLights := roomLights w;
     lightsOn := lightsOn w; lights := lights w; attached := attached w;
     resizeListeners := resizeListeners w; frameRequests := frameRequests w;
     renderersCreated := renderersCreated w;
     devicePixelRatio := devicePixelRatio w |}.

Definition set_animationId (v : option nat) (w : World) : World :=
  {| scene := scene w; camera := camera w; renderer := renderer w;
     controls := controls w; animationId := v;
     isInitialized := isInitialized w; roomLights := roomLights w;
     lightsOn := lightsOn w; lights := lights w; attached := attached w;
     resizeListeners := resizeListeners w; frameRequests := frameRequests w;
     renderersCreated := renderersCreated w;
     devicePixelRatio := devicePixelRatio w |}.

Definition set_isInitialized (v : bool) (w : World) : World :=
  {| scene := scene w; camera := camera w; renderer := renderer w;
     controls := controls w; animationId := animationId w;
     isInitialized := v; roomLights := roomLights w;
     lightsOn := lightsOn w; lights := lights w; attached := attached w;
     resizeListeners := resizeListeners w; frameRequests := frameRequests w;
     renderersCreated := renderersCreated w;
     devicePixelRatio := devicePixelRatio w |}.

Definition set_roomLights (v : RoomLights) (w : World) : World :=
  {| scene := scene w; camera := camera w; renderer := renderer w;
     controls := controls w; animationId := animationId w;
     isInitialized := isInitialized w; roomLights := v;
     lightsOn := lightsOn w; lights := lights w; attached := attached w;
     resizeListeners := resizeListeners w; frameRequests := frameRequests w;
     renderersCreated := renderersCreated w;
     devicePixelRatio := devicePixelRatio w |}.

Definition set_lightsOn (v : bool) (w : World) : World :=
  {| scene := scene w; camera := camera w; renderer := renderer w;
     controls := controls w; animationId := animationId w;
     isInitialized := isInitialized w; roomLights := roomLights w;
     lightsOn := v; lights := lights w; attached := attached w;
     resizeListeners := resizeListeners w; frameRequests := frameRequests w;
     renderersCreated := renderersCreated w;
     devicePixelRatio := devicePixelRatio w |}.

Definition set_lights (v : list Light) (w : World) : World :=
  {| scene := scene w; camera := camera w; renderer := renderer w;
     controls := controls w; animationId := animationId w;
     isInitialized := isInitialized w; roomLights := roomLights w;
     lightsOn := lightsOn w; lights := v; attached := attached w;
     resizeListeners := resizeListeners w; frameRequests := frameRequests w;
     renderersCreated := renderersCreated w;
     devicePixelRatio := devicePixelRatio w |}.

(** The page side: [attached], [resizeListeners], [frameRequests],
    [renderersCreated]. *)
Definition set_page (a : list (nat * nat)) (l : list nat) (f r : nat)
    (w : World) : World :=
  {| scene := scene w; camera := camera w; renderer := renderer w;
     controls := controls w; animationId := animationId w;
     isInitialized := isInitialized w; roomLights := roomLights w;
     lightsOn := lightsOn w; lights := lights w; attached := a;
     resizeListeners := l; frameRequests := f; renderersCreated := r;
     devicePixelRatio := devicePixelRatio w |}.

(** *** Statements: state passing with exceptions *)

Inductive Error : Type := TypeError.

Inductive Completion (A : Type) : Type :=
| Normal (a : A)
| Throw (e : Error).
Arguments Normal {A} a.
Arguments Throw {A} e.

Definition M (A : Type) : Type := World -> World * Completion A.

#[export] Instance M_ret : MRet M := fun A a w => (w, Normal a).

#[export] Instance M_bind : MBind M := fun A B k m w =>
  match m w with
  | (w', Normal a) => k a w'
  | (w', Throw e) => (w', Throw e)
  end.

Definition get : M World := fun w => (w, Normal w).
Definition modify (f : World -> World) : M unit := fun w => (f w, Normal tt).
Definition throw {A : Type} (e : Error) : M A := fun w => (w, Throw e).

(** Reading a property of [null] and writing one both throw a [TypeError]. *)
Definition deref {A : Type} (o : option A) : M A :=
  match o with
  | Some a => mret a
  | None => throw TypeError
  end.

Definition with_intensity (v : float) (l : Light) : Light :=
  {| kind := kind l; color := color l; intensity := v |}.

(** [roomLights.slot.intensity = v] *)
Definition set_intensity (slot : RoomLights -> option nat) (v : float) : M unit :=
  w ← get;
  a ← deref (slot (roomLights w));
  modify (set_lights (alter (with_intensity v) a (lights w))).

(** [roomLights.slot = new THREE....Light(color, intensity); group.add(...)]:
    the new light object gets the next free address. *)
Definition new_light (k : LightKind) (c : Z) (v : float)
    (store : nat -> RoomLights -> RoomLights) : M Object3D :=
  w ← get;
  let a := length (lights w) in
  modify (set_lights (lights w ++ [{| kind := k; color := c; intensity := v |}]));;
  modify (fun w => set_roomLights (store a (roomLights w)) w);;
  mret (LightNode a).

Definition store_ambient (a : nat) (r : RoomLights) : RoomLights :=
  {| ambient := Some a; deskLight := deskLight r; monitorLight := monitorLight r;
     ledLight := ledLight r; ceilingLight := ceilingLight r;
     fillLight := fillLight r |}.
Definition store_deskLight (a : nat) (r : RoomLights) : RoomLights :=
  {| ambient := ambient r; deskLight := Some a; monitorLight := monitorLight r;
     ledLight := ledLight r; ceilingLight := ceilingLight r;
     fillLight := fillLight r |}.
Definition store_monitorLight (a : nat) (r : RoomLights) : RoomLights :=
  {| ambient := ambient r; deskLight := deskLight r; monitorLight := Some a;
     ledLight := ledLight r; ceilingLight := ceilingLight r;
     fillLight := fillLight r |}.
Definition store_ledLight (a : nat) (r : RoomLights) : RoomLights :=
  {| ambient := ambient r; deskLight := deskLight r;
     monitorLight := monitorLight r; ledLight := Some a;
     ceilingLight := ceilingLight r; fillLight := fillLight r |}.
Definition store_ceilingLight (a : nat) (r : RoomLights) : RoomLights :=
  {| ambient := ambient r; deskLight := deskLight r;
     monitorLight := monitorLight r; ledLight := ledLight r;
     ceilingLight := Some a; fillLight := fillLight r |}.
Definition store_fillLight (a : nat) (r : RoomLights) : RoomLights :=
  {| ambient := ambient r; deskLight := deskLight r;
     monitorLight := monitorLight r; ledLight := ledLight r;
     ceilingLight := ceilingLight r; fillLight := Some a |}.

(** [createLighting()] *)
Definition createLighting : M Object3D :=
  l1 ← new_light AmbientLight 0x404060 (num 4 1) store_ambient;
  l2 ← new_light PointLight 0xffeedd (num 12 1) store_deskLight;
  l3 ← new_light PointLight 0x00d4ff (num 8 1) store_monitorLight;
  l4 ← new_light PointLight 0x7b2ff7 (num 6 1) store_ledLight;
  l5 ← new_light PointLight 0xeeeeff (num 15 1) store_ceilingLight;
  l6 ← new_light DirectionalLight 0x334466 (num 3 1) store_fillLight;
  mret (Group [l1; l2; l3; l4; l5; Fixture; l6]).

(** [toggleLight()] *)
Definition toggleLight : M bool :=
  modify (fun w => set_lightsOn (negb (lightsOn w)) w);;
  w ← get;
  (if lightsOn w then
     (* Full room light ON *)
     set_intensity ambient (num 4 1);;
     set_intensity deskLight (num 12 1);;
     set_intensity ceilingLight (num 15 1);;
     set_intensity fillLight (num 3 1)
   else
     (* Lights OFF: only monitor + LED accent remain *)
     set_intensity ambient (num 8 2);;
     set_intensity deskLight (num 1 1);;
     set_intensity ceilingLight (num 0 0);;
     set_intensity fillLight (num 0 0));;
  w ← get;
  mret (lightsOn w).

(** [scene.add(object)] *)
Definition scene_add (o : Object3D) : M unit :=
  w ← get;
  s ← deref (scene w);
  modify (set_scene (Some {| background := background s; fog := fog s;
                             children := children s ++ [o] |})).

(** [animate()] of the room: request the next frame, update the controls,
    render. Neither [controls.update()] nor [renderer.render] changes the
    modelled state. *)
Definition animate : M unit :=
  w ← get;
  let id := S (frameRequests w) in
  modify (set_page (attached w) (resizeListeners w) id (renderersCreated w));;
  modify (set_animationId (Some id));;
  w ← get;
  _ ← deref (controls w);
  _ ← deref (renderer w);
  mret tt.

(** [init3DRoom(container)]; a null container is [None]. *)
Definition init3DRoom (container : option Container) : M unit :=
  w ← get;
  if isInitialized w then mret tt
  else
    modify (set_isInitialized true);;
    modify (set_scene (Some {| background := 0x060610;
                               fog := (0x060610%Z, num 5 0, num 12 0);
                               children := [] |}));;
    c ← deref container;
    modify (set_camera
              (Some {| fov := num 55 0;
                       aspect := PrimFloat.div (clientWidth c) (clientHeight c);
                       near := num 1 1; far := num 20 0;
                       position := (num 5 1, num 22 1, num 25 1) |}));;
    w ← get;
    let canvas := renderersCreated w in
    modify (set_renderer
              (Some {| domElement := canvas;
                       rendererSize := (clientWidth c, clientHeight c);
                       pixelRatio := float_min (devicePixelRatio w) (num 2 0);
                       toneMappingExposure := num 12 1 |}));;
    modify (set_page (attached w ++ [(elementId c, canvas)])
                     (resizeListeners w) (frameRequests w) (S canvas));;
    modify (set_controls
              (Some {| dampingFactor := num 5 2;
                       maxPolarAngleOverPi := num 85 2;
                       minPolarAngle := num 2 1;
                       minDistance := num 1 0;
                       maxDistance := num 6 0;
                       target := (num 0 0, num 12 1, num (-12) 1);
                       panSpeed := num 5 1 |}));;
    (* Build scene *)
    scene_add (Static RoomShell);;
    scene_add (Static Desk);;
    scene_add (Static Monitor);;
    scene_add (Static SecondMonitor);;
    scene_add (Static Peripherals);;
    scene_add (Static Chair);;
    scene_add (Static Posters);;
    scene_add (Static Bookshelf);;
    scene_add (Static Decorations);;
    lighting ← createLighting;
    scene_add lighting;;
    scene_add (Static FloorMat);;
    scene_add (Static Bed);;
    scene_add (Static MordekaiserFigurine);;
    scene_add (Static HollowKnightFigurine);;
    w ← get;
    modify (set_page (attached w) (resizeListeners w ++ [elementId c])
                     (frameRequests w) (renderersCreated w));;
    animate.

(** [dispose3DRoom()] *)
Definition dispose3DRoom : M unit :=
  w ← get;
  (match animationId w with
   | Some _ => modify (set_animationId None)
   | None => mret tt
   end);;
  (match renderer w with
   | Some r =>
       modify (fun w =>
                 set_page (filter (fun ac => negb (Nat.eqb (snd ac) (domElement r)))
                                  (attached w))
                          (resizeListeners w) (frameRequests w)
                          (renderersCreated w) w)
   | None => mret tt
   end);;
  modify (set_scene None);;
  modify (set_camera None);;
  modify (set_renderer None);;
  modify (set_controls None);;
  modify (set_isInitialized false).

(** *** Observations used in the statements *)

(** The intensity of the light a registry slot refers to. *)
Definition intensity_of (slot : RoomLights -> option nat) (w : World)
  : option float :=
  a ← slot (roomLights w);
  l ← lights w !! a;
  Some (intensity l).

(** The registry is populated: its six slots hold the addresses of six
    different light objects. *)
Definition populated (w : World) : Prop :=
  exists a d m l c f,
    roomLights w = {| ambient := Some a; deskLight := Some d;
                      monitorLight := Some m; ledLight := Some l;
                      ceilingLight := Some c; fillLight := Some f |}
    /\ NoDup [a; d; m; l; c; f]
    /\ Forall (fun i => i < length (lights w))%nat [a; d; m; l; c; f].

(** Nothing has been built: every registry slot is null. *)
Definition unbuilt (w : World) : Prop :=
  roomLights w = {| ambient := None; deskLight := None; monitorLight := None;
                    ledLight := None; ceilingLight := None; fillLight := None |}.

End Room.

(** ** The typing effect of the hero title *)

Module Typing.
Import Stdlib.Strings.String Stdlib.Strings.Ascii.

(** A JavaScript string is a sequence of UTF-16 code units. *)
Definition units (s : string) : list nat :=
  List.map nat_of_ascii (list_ascii_of_string s).

(** The [titles] array; the letter o with acute accent is the code unit 243. *)
Definition titles : list (list nat) :=
  [ units "Analista de TI";
    units "DevOps & CI/CD";
    units "Infraestructura Cloud";
    units "Integraci" ++ [243%nat] ++ units "n SAP";
    units "Automatizaci" ++ [243%nat] ++ units "n de Procesos" ].

(** [s.substring(0, e)]: a negative end counts as 0, an end past the string as
    its length. *)
Definition substring0 (s : list nat) (e : Z) : list nat :=
  firstn (Z.to_nat e) s.

(** The closure variables of [initTypingEffect] and the text of the
    element. *)
Record State : Type := {
  titleIndex : nat;
  charIndex : Z;
  isDeleting : bool;
  textContent : list nat
}.

(** The state when the first timer fires. *)
Definition start (text : list nat) : State :=
  {| titleIndex := 0; charIndex := 0; isDeleting := false;
     textContent := text |}.

(** [type()] over the array [ts]: the state it leaves and the delay it passes
    to [setTimeout]; [None] is the [TypeError] of [current.substring] when
    [ts[titleIndex]] is undefined. *)
Definition type (ts : list (list nat)) (s : State) : option (State * Z) :=
  match nth_error ts (titleIndex s) with
  | None => None
  | Some current =>
      let '(text, ci) :=
        if isDeleting s
        then (substring0 current (charIndex s - 1), (charIndex s - 1)%Z)
        else (substring0 current (charIndex s + 1), (charIndex s + 1)%Z) in
      let speed := if isDeleting s then 40%Z else 80%Z in
      if negb (isDeleting s) && (ci =? Z.of_nat (List.length current))%Z then
        Some ({| titleIndex := titleIndex s; charIndex := ci;
                 isDeleting := true; textContent := text |}, 2000%Z)
      else if isDeleting s && (ci =? 0)%Z then
        Some ({| titleIndex := (titleIndex s + 1) mod List.length ts;
                 charIndex := ci; isDeleting := false;
                 textContent := text |}, 500%Z)
      else
        Some ({| titleIndex := titleIndex s; charIndex := ci;
                 isDeleting := isDeleting s; textContent := text |}, speed)
  end.

(** [n] timer ticks in a row: the final state and the delays, in order. *)
Fixpoint ticks (ts : list (list nat)) (n : nat) (s : State)
  : option (State * list Z) :=
  match n with
  | O => Some (s, [])
  | S n' =>
      match type ts s with
      | None => None
      | Some (s', d) =>
          match ticks ts n' s' with
          | None => None
          | Some (s'', ds) => Some (s'', d :: ds)
          end
      end
  end.

End Typing.

(** ** The cursor glow and the magnetic buttons *)

Module Glow.
Section WithNumber.
Context {num : Type} `{Js.Number num}.
Local Open Scope js_scope.
Import Js.

(** The closure variables of [initCursorGlow]; [style.left] and [style.top] of
    the element are [currentX] and [currentY] in pixels. *)
Record State : Type := {
  glowX : num;
  glowY : num;
  currentX : num;
  currentY : num;
  active : bool
}.

(** The [mousemove] listener. *)
Definition mousemove (clientX clientY : num) (s : State) : State :=
  {| glowX := clientX; glowY := clientY; currentX := currentX s;
     currentY := currentY s; active := true |}.

(** [updateGlow()]: one frame. *)
Definition updateGlow (s : State) : State :=
  {| glowX := glowX s; glowY := glowY s;
     currentX := currentX s + (glowX s - currentX s) * lit 1 1;
     currentY := currentY s + (glowY s - currentY s) * lit 1 1;
     active := active s |}.

(** [initCursorGlow()]: nothing on a narrow viewport or without the element;
    otherwise the state after the first [updateGlow()]. *)
Definition initCursorGlow (innerWidth : num) (has_glow : bool)
    (was_active : bool) : option State :=
  if innerWidth <? int 768 then None
  else if negb has_glow then None
  else Some (updateGlow {| glowX := int 0; glowY := int 0; currentX := int 0;
                           currentY := int 0; active := was_active |}).



(** The [mouseleave] listener: [translate(0, 0)]. *)
Definition magnetic_mouseleave : num * num := (int 0, int 0).

End WithNumber.
End Glow.

(** ** The exports of [room3d.js] as the page calls them *)

Module RoomApi.
Import Js Room.

Inductive Call : Type :=
| CallInit (container : option Container)
| CallToggle
| CallDispose.

(** One call; an exception ends the call and leaves the state as it is at the
    throw. *)
Definition call (w : World) (c : Call) : World :=
  match c with
  | CallInit container => fst (init3DRoom container w)
  | CallToggle => fst (toggleLight w)
  | CallDispose => fst (dispose3DRoom w)
  end.

Definition calls (w : World) (cs : list Call) : World := fold_left call cs w.

(** The six light objects [createLighting] constructs, in order. *)
Definition fresh_lights : list Light :=
  [ {| kind := AmbientLight; color := 0x404060; intensity := num 4 1 |};
    {| kind := PointLight; color := 0xffeedd; intensity := num 12 1 |};
    {| kind := PointLight; color := 0x00d4ff; intensity := num 8 1 |};
    {| kind := PointLight; color := 0x7b2ff7; intensity := num 6 1 |};
    {| kind := PointLight; color := 0xeeeeff; intensity := num 15 1 |};
    {| kind := DirectionalLight; color := 0x334466; intensity := num 3 1 |} ].

(** The registry whose slots hold the six addresses from [n] on. *)
Definition registry_from (n : nat) : RoomLights :=
  {| ambient := Some n; deskLight := Some (n + 1)%nat;
     monitorLight := Some (n + 2)%nat; ledLight := Some (n + 3)%nat;
     ceilingLight := Some (n + 4)%nat; fillLight := Some (n + 5)%nat |}.

End RoomApi.

(** ** The navigation bar *)

Module Navbar.
Import Stdlib.Strings.String.
Section WithNumber.
Context {num : Type} `{Js.Number num}.
Local Open Scope js_scope.
Import Js.

(** A page section: [offsetTop], and [getAttribute('id')], null when the
    attribute is absent. *)
Record PageSection : Type := {
  offsetTop : num;
  section_id : option string
}.

(** A navigation link: [getAttribute('href')] (null when absent),
    [dataset.section] (undefined when absent) and whether its class list
    contains [active]. *)
Record Link : Type := {
  href : option string;
  data_section : option string;
  link_active : bool
}.

(** What [document.querySelector] does with a selector. *)
Inductive Query : Type := Found | Missing | InvalidSelector.

(** The class lists the listeners write, for a page whose [navbar],
    [hamburger] and [navLinks] elements exist, and the last element scrolled
    into view. *)
Record State : Type := {
  scrolled : bool;
  hamburger_open : bool;
  navLinks_open : bool;
  links : list Link;
  scrolledIntoView : option (option string)
}.

Inductive Event : Type :=
| Scroll (scrollY : num)
| HamburgerClick
| LinkClick (i : nat).

(** [let current = ''; sections.forEach(...)] of the second scroll listener. *)
Definition current_section (sections : list PageSection) (scrollY : num)
  : option string :=
  fold_left (fun current section =>
               let top := offsetTop section - int 100 in
               if top <=? scrollY then section_id section else current)
            sections (Some EmptyString).

(** [link.dataset.section === current]: a missing attribute is [undefined],
    which is not [null]. *)
Definition strict_equal (d current : option string) : bool :=
  match d, current with
  | Some a, Some b => String.eqb a b
  | _, _ => false
  end.

Definition set_active (current : option string) (l : Link) : Link :=
  {| href := href l; data_section := data_section l;
     link_active := strict_equal (data_section l) current |}.

(** One event; [query] is [document.querySelector] on the page. A selector
    that is not valid makes [querySelector] throw, which ends the click
    listener before it closes the menu. *)
Definition handle (sections : list PageSection) (query : option string -> Query)
    (s : State) (e : Event) : State :=
  match e with
  | Scroll scrollY =>
      {| scrolled := scrollY >? int 50;
         hamburger_open := hamburger_open s;
         navLinks_open := navLinks_open s;
         links := List.map (set_active (current_section sections scrollY))
                           (links s);
         scrolledIntoView := scrolledIntoView s |}
  | HamburgerClick =>
      {| scrolled := scrolled s;
         hamburger_open := negb (hamburger_open s);
         navLinks_open := negb (navLinks_open s);
         links := links s;
         scrolledIntoView := scrolledIntoView s |}
  | LinkClick i =>
      match nth_error (links s) i with
      | None => s
      | Some link =>
          match query (href link) with
          | InvalidSelector => s
          | Found =>
              {| scrolled := scrolled s; hamburger_open := false;
                 navLinks_open := false; links := links s;
                 scrolledIntoView := Some (href link) |}
          | Missing =>
              {| scrolled := scrolled s; hamburger_open := false;
                 navLinks_open := false; links := links s;
                 scrolledIntoView := scrolledIntoView s |}
          end
      end
  end.

Definition run (sections : list PageSection) (query : option string -> Query)
    (s : State) (es : list Event) : State :=
  fold_left (handle sections query) es s.

End WithNumber.
End Navbar.

(** ** The modal of the 3D room *)

Module Modal.
Import Room.

Inductive Key : Type := Escape | OtherKey.

Inductive Event : Type :=
| OpenClick
| CloseClick
| OverlayClick
| KeyDown (key : Key).

(** [modal.classList] contains [active]; [document.body.style.overflow] is
    ['hidden'] (else it is ['']); the closure variable [roomLoaded]; the number
    of [import('./room3d.js')] requests; and the state of that module, whose
    [init3DRoom] runs when the import resolves. *)
Record State : Type := {
  modal_active : bool;
  overflow_hidden : bool;
  roomLoaded : bool;
  imports : nat;
  room : World
}.


(** [openModal()]; [wrapper] is the element the room is built in, null when
    the page has none. *)
Definition openModal (wrapper : option Container) (s : State) : State :=
  if roomLoaded s then
    {| modal_active := true; overflow_hidden := true;
       roomLoaded := roomLoaded s; imports := imports s; room := room s |}
  else
    {| modal_active := true; overflow_hidden := true; roomLoaded := true;
       imports := S (imports s);
       room := fst (init3DRoom wrapper (room s)) |}.

(** [closeModal()] *)
Definition closeModal (s : State) : State :=
  {| modal_active := false; overflow_hidden := false;
     roomLoaded := roomLoaded s; imports := imports s; room := room s |}.

Definition handle (wrapper : option Container) (s : State) (e : Event)
  : State :=
  match e with
  | OpenClick => openModal wrapper s
  | CloseClick => closeModal s
  | OverlayClick => closeModal s
  | KeyDown Escape => if modal_active s then closeModal s else s
  | KeyDown OtherKey => s
  end.

Definition run (wrapper : option Container) (s : State) (es : list Event)
  : State :=
  fold_left (handle wrapper) es s.

End Modal.

(** ** Start-up: the [DOMContentLoaded] listener *)

Module Page.

(** Which elements [document.getElementById] finds, and the viewport width. *)
Record Document : Type := {
  particlesCanvas : bool;
  cursorGlow : bool;
  hamburger : bool;
  heroTitle : bool;
  timelineFill : bool;
  open3DRoom : bool;
  close3DRoom : bool;
  room3dModal : bool;
  room3dOverlay : bool;
  innerWidth : Z
}.

(** What an initializer sets going: a listener, a loop, a timer, or a set of
    animations. *)
Inductive Started : Type :=
| ParticleLoop
| GlowLoop
| NavScrollBackground
| NavHamburgerClick
| NavLinkClicks
| NavActiveLink
| HeroTimeline
| TypingTimer
| CounterTriggers
| ScrollReveals
| TimelineScrub
| MagneticListeners
| ModalOpenClick
| ModalCloseClick
| ModalOverlayClick
| ModalKeydown.

(** The result of a run: what was started, and whether a [TypeError] ended
    it. Calls into the animation library are taken not to throw. *)
Record Outcome : Type := {
  started : list Started;
  threw : bool
}.

Definition done (l : list Started) : Outcome := {| started := l; threw := false |}.
Definition failed (l : list Started) : Outcome := {| started := l; threw := true |}.

Definition initParticles (d : Document) : Outcome :=
  if negb (particlesCanvas d) then done [] else done [ParticleLoop].

Definition initCursorGlow (d : Document) : Outcome :=
  if (innerWidth d <? 768)%Z then done []
  else if negb (cursorGlow d) then done []
  else done [GlowLoop].

(** [hamburger.addEventListener] throws when [hamburger] is null; the first
    scroll listener is registered before that. *)
Definition initNavbar (d : Document) : Outcome :=
  if negb (hamburger d) then failed [NavScrollBackground]
  else done [NavScrollBackground; NavHamburgerClick; NavLinkClicks;
             NavActiveLink].

Definition initHeroAnimations (d : Document) : Outcome := done [HeroTimeline].

Definition initTypingEffect (d : Document) : Outcome :=
  if negb (heroTitle d) then done [] else done [TypingTimer].

Definition initCounters (d : Document) : Outcome := done [CounterTriggers].

Definition initScrollReveals (d : Document) : Outcome := done [ScrollReveals].

Definition initTimelineFill (d : Document) : Outcome :=
  if negb (timelineFill d) then done [] else done [TimelineScrub].

Definition initMagneticButtons (d : Document) : Outcome :=
  if (innerWidth d <? 768)%Z then done [] else done [MagneticListeners].

(** Only [openBtn] and [modal] are checked; [closeBtn] and [overlay] are used
    as they are. *)
Definition init3DRoomModal (d : Document) : Outcome :=
  if negb (open3DRoom d) || negb (room3dModal d) then done []
  else if negb (close3DRoom d) then failed [ModalOpenClick]
  else if negb (room3dOverlay d) then failed [ModalOpenClick; ModalCloseClick]
  else done [ModalOpenClick; ModalCloseClick; ModalOverlayClick; ModalKeydown].

(** Statements in sequence: an exception skips the rest. *)
Definition sequence (fs : list (Document -> Outcome)) (d : Document)
  : Outcome :=
  fold_left (fun acc f =>
               if threw acc then acc
               else {| started := started acc ++ started (f d);
                       threw := threw (f d) |})
            fs (done []).

(** The [DOMContentLoaded] listener. *)
Definition onDOMContentLoaded : Document -> Outcome :=
  sequence [initParticles; initCursorGlow; initNavbar; initHeroAnimations;
            initTypingEffect; initCounters; initScrollReveals;
            initTimelineFill; initMagneticButtons; init3DRoomModal].

End Page.

(** ** Sample states *)

Module Samples.
Import Js Particles.
Local Open Scope float_scope.

Definition canvas800 : Canvas (num := float) := {| width := 800; height := 600 |}.

Definition pointer_at (mx my : float) : Mouse :=
  {| mouse_x := Some mx; mouse_y := Some my |}.

Definition no_pointer : Mouse (num := float) :=
  {| mouse_x := None; mouse_y := None |}.

(** A particle whose velocity step lands exactly on the point (100, 50). *)
Definition meeting_particle : Particle :=
  {| x := 99.75; y := 50.25; size := 1; speedX := 0.25; speedY := -0.25;
     opacity := 0.5 |}.


(** A particle in the open, 50 to the right of the point (100, 100) after its
    velocity step. *)
Definition free_particle : Particle :=
  {| x := 149.75; y := 100.25; size := 1; speedX := 0.25; speedY := -0.25;
     opacity := 0.5 |}.



(** The room's container, and the state after the first [init3DRoom]. *)
Definition wrapper : Room.Container :=
  {| Room.elementId := 7; Room.clientWidth := 800%float;
     Room.clientHeight := 600%float |}.

Definition built : Room.World :=
  fst (Room.init3DRoom (Some wrapper) (Room.loaded 1%float)).

End Samples.

(** ** Sample pages *)

Module PageSamples.
Import Stdlib.Strings.String.
Local Open Scope string_scope.

(** Three sections at 0, 800 and 1600 pixels, and a link to each. *)
Definition sections : list (Navbar.PageSection (num := float)) :=
  [ {| Navbar.offsetTop := 0%float; Navbar.section_id := Some "hero" |};
    {| Navbar.offsetTop := 800%float; Navbar.section_id := Some "about" |};
    {| Navbar.offsetTop := 1600%float; Navbar.section_id := Some "contact" |} ].

Definition link_to (name : string) : Navbar.Link :=
  {| Navbar.href := Some ("#" ++ name); Navbar.data_section := Some name;
     Navbar.link_active := false |}.

Definition closed_menu : Navbar.State :=
  {| Navbar.scrolled := false; Navbar.hamburger_open := false;
     Navbar.navLinks_open := false;
     Navbar.links := [link_to "hero"; link_to "about"; link_to "contact"];
     Navbar.scrolledIntoView := None |}.

(** Every selector is valid, and only [#about] names an element. *)
Definition query (selector : option string) : Navbar.Query :=
  match selector with
  | Some "#about" => Navbar.Found
  | _ => Navbar.Missing
  end.

(** A page with every element, 1280 pixels wide; and the same page without its
    menu button. *)
Definition full_page : Page.Document :=
  {| Page.particlesCanvas := true; Page.cursorGlow := true;
     Page.hamburger := true; Page.heroTitle := true;
     Page.timelineFill := true; Page.open3DRoom := true;
     Page.close3DRoom := true; Page.room3dModal := true;
     Page.room3dOverlay := true; Page.innerWidth := 1280 |}.

Definition page_without_hamburger : Page.Document :=
  {| Page.particlesCanvas := true; Page.cursorGlow := true;
     Page.hamburger := false; Page.heroTitle := true;
     Page.timelineFill := true; Page.open3DRoom := true;
     Page.close3DRoom := true; Page.room3dModal := true;
     Page.room3dOverlay := true; Page.innerWidth := 1280 |}.

End PageSamples.

(** * Properties *)

Import Js Particles.

(** ** Sample runs *)

Section SampleRuns.
Local Open Scope float_scope.

(** The decimal literals of the scripts denote these doubles. *)
Example literals_are_nearest_doubles :
  float_lit 8 2 = 0x1.47ae147ae147bp-4
  /\ float_lit 1 1 = 0x1.999999999999ap-4
  /\ float_lit 3 1 = 0x1.3333333333333p-2
  /\ float_lit 4 1 = 0x1.999999999999ap-2
  /\ float_lit 12 1 = 0x1.3333333333333p+0
  /\ float_lit 15 1 = 1.5
  /\ float_lit (-1) 0 = -1.
Proof. repeat split; reflexivity. Qed.

(** Without a pointer the particle just moves. *)
Example update_moves :
  update Samples.canvas800 Samples.no_pointer Samples.free_particle
  = {| x := 150; y := 100; size := 1; speedX := 0.25; speedY := -0.25;
       opacity := 0.5 |}.
Proof. reflexivity. Qed.

(** With the pointer 50 to its left, the particle is pushed to the right by
    [(50 / 50) * ((120 - 50) / 120) * 2]. *)
Example update_repels :
  update Samples.canvas800 (Samples.pointer_at 100 100) Samples.free_particle
  = {| x := 150 + 50 / 50 * (70 / 120) * 2; y := 100; size := 1;
       speedX := 0.25; speedY := -0.25; opacity := 0.5 |}.
Proof. reflexivity. Qed.

(** A particle that leaves the canvas on the left is put back on the wall with
    its horizontal velocity reversed. *)
Example update_bounces :
  update Samples.canvas800 Samples.no_pointer
         {| x := 0.25; y := 300; size := 1; speedX := -0.5; speedY := 0.25;
            opacity := 0.5 |}
  = {| x := 0; y := 300.25; size := 1; speedX := 0.5; speedY := 0.25;
       opacity := 0.5 |}.
Proof. reflexivity. Qed.

(** Four particles: six iterations of the connection loop, in this order. *)
Example connection_pairs_of_four :
  connection_pairs 4 = [(0, 1); (0, 2); (0, 3); (1, 2); (1, 3); (2, 3)]%nat.
Proof. reflexivity. Qed.

(** A toggle on the built room turns the four room lights down and returns
    [false]. *)
Example toggle_built_room :
  snd (Room.toggleLight Samples.built) = Room.Normal false
  /\ Room.intensity_of Room.ambient (fst (Room.toggleLight Samples.built))
     = Some (float_lit 8 2)
  /\ Room.intensity_of Room.monitorLight (fst (Room.toggleLight Samples.built))
     = Some (float_lit 8 1).
Proof. repeat split; vm_compute; reflexivity. Qed.

End SampleRuns.

(** ** Comparisons of binary64 values *)

Section FloatOrder.

Lemma SFcompare_antisym (a b : spec_float) :
  SFcompare b a = option_map CompOpp (SFcompare a b).
Proof.
  destruct a as [sa|sa| |sa ma ea], b as [sb|sb| |sb mb eb]; simpl;
    try reflexivity; try (destruct sa; reflexivity);
    try (destruct sb; reflexivity); try (destruct sa, sb; reflexivity).
  rewrite (Z.compare_antisym ea eb).
  rewrite !Pos.compare_cont_spec.
  rewrite (Pos.compare_antisym ma mb).
  destruct sa, sb; simpl; try reflexivity;
    destruct (ea ?= eb)%Z; simpl; try reflexivity;
    destruct (ma ?= mb)%positive; reflexivity.
Qed.

Lemma SFcompare_refl (a : spec_float) :
  a <> S754_nan -> SFcompare a a = Some Eq.
Proof.
  destruct a as [s|s| |s m e]; simpl; intros Ha; try congruence;
    try (destruct s; reflexivity).
  rewrite Z.compare_refl. rewrite Pos.compare_cont_spec. rewrite Pos.compare_refl.
  destruct s; reflexivity.
Qed.

Lemma is_nan_spec (f : float) :
  PrimFloat.is_nan f = true <-> Prim2SF f = S754_nan.
Proof.
  unfold PrimFloat.is_nan. rewrite FloatAxioms.eqb_spec. unfold SFeqb. split.
  - intros Hn. destruct (Prim2SF f) eqn:E; try reflexivity;
      rewrite SFcompare_refl in Hn by congruence; discriminate.
  - intros ->. reflexivity.
Qed.

Lemma is_nan_false (f : float) :
  PrimFloat.is_nan f = false <-> Prim2SF f <> S754_nan.
Proof.
  rewrite <- is_nan_spec. destruct (PrimFloat.is_nan f); split; congruence.
Qed.

Lemma SFcompare_some (a b : spec_float) :
  a <> S754_nan -> b <> S754_nan -> exists c, SFcompare a b = Some c.
Proof.
  destruct a, b; simpl; intros; try congruence; eauto.
Qed.

Lemma ltb_false_leb (a b : float) :
  PrimFloat.is_nan a = false -> PrimFloat.is_nan b = false ->
  PrimFloat.ltb a b = false -> PrimFloat.leb b a = true.
Proof.
  rewrite !is_nan_false, FloatAxioms.ltb_spec, FloatAxioms.leb_spec. unfold SFltb, SFleb.
  intros Ha Hb. rewrite (SFcompare_antisym (Prim2SF a) (Prim2SF b)).
  destruct (SFcompare_some _ _ Ha Hb) as [c ->].
  destruct c; simpl; congruence.
Qed.

Lemma ltb_leb (a b : float) :
  PrimFloat.ltb a b = true -> PrimFloat.leb a b = true.
Proof.
  rewrite FloatAxioms.ltb_spec, FloatAxioms.leb_spec. unfold SFltb, SFleb.
  destruct (SFcompare (Prim2SF a) (Prim2SF b)) as [[]|]; congruence.
Qed.

Lemma leb_not_ltb (a b : float) :
  PrimFloat.leb a b = true -> PrimFloat.ltb b a = false.
Proof.
  rewrite FloatAxioms.ltb_spec, FloatAxioms.leb_spec. unfold SFltb, SFleb.
  rewrite (SFcompare_antisym (Prim2SF a) (Prim2SF b)).
  destruct (SFcompare (Prim2SF a) (Prim2SF b)) as [[]|]; simpl; congruence.
Qed.

Lemma leb_refl (a : float) :
  PrimFloat.is_nan a = false -> PrimFloat.leb a a = true.
Proof.
  rewrite is_nan_false, FloatAxioms.leb_spec. unfold SFleb. intros Ha.
  rewrite SFcompare_refl by assumption. reflexivity.
Qed.

End FloatOrder.

(** ** Clamping *)

Section Clamp.

Lemma float_min_le (w t : float) :
  PrimFloat.is_nan w = false -> PrimFloat.is_nan t = false ->
  PrimFloat.is_nan (float_min w t) = false
  /\ PrimFloat.leb (float_min w t) w = true.
Proof.
  intros Hw Ht. unfold float_min. rewrite Hw, Ht. simpl.
  destruct (PrimFloat.ltb w t) eqn:E1.
  - split; [assumption | apply leb_refl; assumption].
  - destruct (PrimFloat.ltb t w) eqn:E2.
    + split; [assumption | apply ltb_leb; assumption].
    + destruct (PrimFloat.get_sign w).
      * split; [assumption | apply leb_refl; assumption].
      * split; [assumption | apply ltb_false_leb; assumption].
Qed.

Lemma float_max_zero_ge (w m : float) :
  PrimFloat.leb 0 w = true ->
  PrimFloat.is_nan m = false -> PrimFloat.leb m w = true ->
  PrimFloat.leb 0 (float_max 0 m) = true
  /\ PrimFloat.leb (float_max 0 m) w = true.
Proof.
  intros Hw Hm Hmw. unfold float_max. rewrite Hm.
  change (PrimFloat.is_nan 0) with false. simpl.
  destruct (PrimFloat.ltb 0 m) eqn:E1.
  - split; [apply ltb_leb; assumption | assumption].
  - change (PrimFloat.get_sign 0) with false.
    destruct (PrimFloat.ltb m 0); split; auto.
Qed.

(** [Math.max(0, Math.min(w, t))] lies in [[0, w]] unless it is NaN. *)
Lemma clamp_in_bounds_or_nan (w t : float) :
  PrimFloat.leb 0 w = true ->
  PrimFloat.is_nan (float_max 0 (float_min w t)) = true
  \/ (PrimFloat.leb 0 (float_max 0 (float_min w t)) = true
      /\ PrimFloat.leb (float_max 0 (float_min w t)) w = true).
Proof.
  intros Hw.
  destruct (PrimFloat.is_nan w || PrimFloat.is_nan t) eqn:E.
  - left. unfold float_min. rewrite E. reflexivity.
  - right. apply orb_false_elim in E as [E1 E2].
    destruct (float_min_le w t E1 E2) as [H1 H2].
    apply float_max_zero_ge; assumption.
Qed.

(** After [update], each coordinate is the clamp of some number. *)
Lemma update_clamps {num : Type} `{Number num}
    (c : Canvas) (m : Mouse) (p : Particle) :
  exists x2 y2 : num,
    x (update c m p) = max (int 0) (min (width c) x2)
    /\ y (update c m p) = max (int 0) (min (height c) y2).
Proof.
  unfold update.
  destruct (mouse_x m) as [mx|], (mouse_y m) as [my|]; simpl;
    try (eexists; eexists; split; reflexivity).
  match goal with |- context [if ?b then _ else _] => destruct b end; simpl;
    eexists; eexists; split; reflexivity.
Qed.

(** On a canvas of non-negative size, a position produced by [update] that
    contains no NaN is within bounds. *)
Lemma update_in_bounds_or_nan (c : Canvas) (m : Mouse) (p : Particle) :
  PrimFloat.leb 0 (width c) = true -> PrimFloat.leb 0 (height c) = true ->
  (PrimFloat.is_nan (x (update c m p)) = true
   \/ PrimFloat.is_nan (y (update c m p)) = true)
  \/ in_bounds c (update c m p) = true.
Proof.
  intros Hw Hh.
  destruct (update_clamps c m p) as (x2 & y2 & Hx & Hy).
  unfold in_bounds. rewrite Hx, Hy. simpl.
  change (float_lit 0 0) with 0%float.
  destruct (clamp_in_bounds_or_nan (width c) x2 Hw) as [Nx|[X1 X2]];
    [left; left; exact Nx|].
  destruct (clamp_in_bounds_or_nan (height c) y2 Hh) as [Ny|[Y1 Y2]];
    [left; right; exact Ny|].
  right. rewrite X1, X2, Y1, Y2. reflexivity.
Qed.

End Clamp.

(** ** Division by zero in the repulsion *)

Section ZeroDistance.

Lemma SFsub_of_equal (a b : spec_float) :
  SFcompare a b = Some Eq -> (forall s, a <> S754_infinity s) ->
  exists s, SF64sub a b = S754_zero s.
Proof.
  destruct a as [sa|sa| |sa ma ea], b as [sb|sb| |sb mb eb]; simpl;
    intros Hc Hfin; try discriminate;
    try (destruct sa; discriminate); try (destruct sb; discriminate).
  - destruct sa, sb; eexists; reflexivity.
  - exfalso. exact (Hfin sa eq_refl).
  - assert (sa = sb /\ ea = eb /\ ma = mb) as (-> & -> & ->).
    { rewrite Pos.compare_cont_spec in Hc.
      destruct sa, sb; try discriminate;
        destruct (Z.compare_spec ea eb); try discriminate;
        destruct (Pos.compare_spec ma mb); try discriminate; auto. }
    exists false. unfold SF64sub, SFsub. rewrite Z.sub_diag. reflexivity.
Qed.

Lemma is_finite_not_infinity (a : float) :
  PrimFloat.is_finite a = true -> forall s, Prim2SF a <> S754_infinity s.
Proof.
  unfold PrimFloat.is_finite, PrimFloat.is_infinity.
  rewrite FloatAxioms.eqb_spec, abs_spec. intros Hf s Hs. rewrite Hs in Hf.
  change (Prim2SF infinity) with (S754_infinity false) in Hf.
  rewrite orb_true_r in Hf. discriminate.
Qed.

Lemma sub_of_equal (a b : float) :
  PrimFloat.eqb a b = true -> PrimFloat.is_finite a = true ->
  exists s, Prim2SF (a - b) = S754_zero s.
Proof.
  rewrite FloatAxioms.eqb_spec, sub_spec. unfold SFeqb. intros He Hf.
  apply SFsub_of_equal.
  - destruct (SFcompare (Prim2SF a) (Prim2SF b)) as [[]|]; congruence.
  - apply is_finite_not_infinity, Hf.
Qed.

Lemma mul_self_zero (d : float) (s : bool) :
  Prim2SF d = S754_zero s -> (d * d)%float = 0%float.
Proof.
  intros Hd. apply Prim2SF_inj. rewrite mul_spec, Hd.
  destruct s; reflexivity.
Qed.

Lemma div_zero_by_zero (d : float) (s : bool) :
  Prim2SF d = S754_zero s -> (d / 0)%float = nan.
Proof.
  intros Hd. apply Prim2SF_inj. rewrite div_spec, Hd. reflexivity.
Qed.

Lemma add_nan (a : float) : (a + nan)%float = nan.
Proof.
  apply Prim2SF_inj. rewrite add_spec.
  change (Prim2SF nan) with S754_nan. destruct (Prim2SF a); reflexivity.
Qed.

Lemma float_clamp_nan (w : float) : float_max 0 (float_min w nan) = nan.
Proof.
  unfold float_min. change (PrimFloat.is_nan nan) with true.
  rewrite orb_true_r. reflexivity.
Qed.

Lemma zero_ltb_not_zero (d : float) :
  PrimFloat.ltb 0 d = true -> PrimFloat.eqb d 0 = false.
Proof.
  rewrite FloatAxioms.ltb_spec, FloatAxioms.eqb_spec. unfold SFltb, SFeqb.
  rewrite (SFcompare_antisym (Prim2SF 0) (Prim2SF d)).
  destruct (SFcompare (Prim2SF 0) (Prim2SF d)) as [[]|]; simpl; congruence.
Qed.

Lemma zero_eqb_ltb_120 (d : float) :
  PrimFloat.eqb d 0 = true -> PrimFloat.ltb d 120 = true.
Proof.
  rewrite FloatAxioms.eqb_spec, FloatAxioms.ltb_spec. unfold SFeqb, SFltb.
  change (Prim2SF 0) with (S754_zero false).
  destruct (Prim2SF d) as [s|s| |s m e]; simpl; try discriminate;
    try (destruct s; discriminate).
  intros _. reflexivity.
Qed.

End ZeroDistance.

(** ** [Particle.update] on binary64 numbers *)

Section UpdateOnFloats.
Local Open Scope float_scope.

(** C8. With the pointer present: when the particle's position after the
    velocity step coincides with the pointer, the distance is exactly 0, the
    guarded division is reached with a zero divisor ([update_checked] is
    [None]) and the unguarded method stores NaN in both coordinates; when the
    distance is strictly between 0 and 120 every division is safe; and a
    division by zero occurs exactly when the distance is 0. *)
Theorem repulsion_divides_by_zero_at_pointer
    (c : Canvas) (mx my : float) (p : Particle) :
  let m := {| mouse_x := Some mx; mouse_y := Some my |} in
  let q := step_velocity p in
  let d := pointer_distance mx my q in
  (PrimFloat.eqb (x q) mx = true -> PrimFloat.eqb (y q) my = true ->
   PrimFloat.is_finite (x q) = true -> PrimFloat.is_finite (y q) = true ->
   d = 0 /\ update_checked c m p = None
   /\ PrimFloat.is_nan (x (update c m p)) = true
   /\ PrimFloat.is_nan (y (update c m p)) = true)
  /\ (PrimFloat.ltb 0 d = true -> PrimFloat.ltb d 120 = true ->
      update_checked c m p = Some (update c m p))
  /\ (update_checked c m p = None <-> PrimFloat.eqb d 0 = true).
Proof.
  intros m q d. subst m q d.
  unfold pointer_distance, distance, step_velocity, update_checked, update,
    safe_div.
  cbn [x y mouse_x mouse_y Js.add Js.sub Js.mul Js.div Js.sqrt Js.ltb Js.eqb
       Js.max Js.min Js.int Js.lit float_Number float_lit float_of_Z
       mbind option_bind].
  set (x1 := x p + speedX p). set (y1 := y p + speedY p).
  set (dx := x1 - mx). set (dy := y1 - my).
  set (dist := PrimFloat.sqrt (dx * dx + dy * dy)).
  change (PrimFloat.of_uint63 (Uint63.of_Z 120)) with 120.
  change (PrimFloat.of_uint63 (Uint63.of_Z 2)) with 2.
  change (120 =? 0) with false. cbn iota.
  split; [|split].
  - intros Ex Ey Fx Fy.
    destruct (sub_of_equal x1 mx Ex Fx) as [s1 H1].
    destruct (sub_of_equal y1 my Ey Fy) as [s2 H2].
    fold dx in H1. fold dy in H2.
    assert (Hd : dist = 0).
    { subst dist. rewrite (mul_self_zero dx s1 H1), (mul_self_zero dy s2 H2).
      reflexivity. }
    rewrite Hd. change (0 <? 120) with true. change (0 =? 0) with true.
    cbn iota. rewrite (div_zero_by_zero dx s1 H1), (div_zero_by_zero dy s2 H2).
    change (nan * ((120 - 0) / 120) * 2) with nan. rewrite !add_nan.
    cbn [x y]. rewrite !float_clamp_nan. repeat split; reflexivity.
  - intros Hpos Hlt. rewrite Hlt, (zero_ltb_not_zero dist Hpos). reflexivity.
  - split.
    + destruct (dist <? 120); [|discriminate].
      destruct (dist =? 0); [reflexivity|discriminate].
    + intros Hz. rewrite (zero_eqb_ltb_120 dist Hz), Hz. reflexivity.
Qed.

(** The theorem applied at the pointer (100, 50) with a particle that steps
    onto it, and at the pointer (100, 100) with a particle that ends 50 away. *)
Lemma repulsion_divides_by_zero_at_pointer_witness :
  update_checked Samples.canvas800 (Samples.pointer_at 100 50)
                 Samples.meeting_particle = None
  /\ update_checked Samples.canvas800 (Samples.pointer_at 100 100)
                    Samples.free_particle
     = Some (update Samples.canvas800 (Samples.pointer_at 100 100)
                    Samples.free_particle).
Proof.
  split.
  - apply (proj1 (repulsion_divides_by_zero_at_pointer
                    Samples.canvas800 100 50 Samples.meeting_particle));
      reflexivity.
  - apply (proj1 (proj2 (repulsion_divides_by_zero_at_pointer
                    Samples.canvas800 100 100 Samples.free_particle)));
      reflexivity.
Defined.

(** C1, at the failing input. A particle at (99.75, 50.25) with velocity
    (0.25, -0.25) and the pointer at (100, 50): after [update] both coordinates
    are NaN, and the position is not within the canvas bounds. *)
Theorem update_leaves_bounds_at_pointer :
  let p' := update Samples.canvas800 (Samples.pointer_at 100 50)
                   Samples.meeting_particle in
  PrimFloat.is_nan (x p') = true /\ PrimFloat.is_nan (y p') = true
  /\ (0 <=? x p')%js = false /\ (0 <=? y p')%js = false
  /\ in_bounds Samples.canvas800 p' = false.
Proof. vm_compute. repeat split; reflexivity. Qed.

End UpdateOnFloats.

(** ** Properties that hold for every arithmetic *)

Section AnyNumber.
Context {num : Type} `{Number num}.

(** C10. [update] writes the position and the velocity only: the size and the
    opacity of the particle are the same before and after every update. *)
Theorem update_keeps_size_and_opacity (c : Canvas) (m : Mouse) (p : Particle) :
  size (update c m p) = size p /\ opacity (update c m p) = opacity p.
Proof.
  unfold update.
  destruct (mouse_x m), (mouse_y m); simpl; auto.
  match goal with |- context [if ?b then _ else _] => destruct b end; auto.
Qed.

Lemma update_is_its_steps (c : Canvas) (m : Mouse) (p : Particle) :
  update c m p = update_steps c m p.
Proof.
  unfold update, update_steps, step_clamp, step_reflect, step_repel, pointer,
    displacement, unit_from, pointer_distance, distance, step_velocity.
  destruct (mouse_x m) as [mx|], (mouse_y m) as [my|]; simpl; try reflexivity.
  match goal with |- context [if ?b then _ else _] => destruct b end;
    reflexivity.
Qed.

(** Where the guarded method returns, it returns what [update] computes. *)
Lemma update_checked_agrees (c : Canvas) (m : Mouse) (p p' : Particle) :
  update_checked c m p = Some p' -> p' = update c m p.
Proof.
  unfold update_checked, update, safe_div.
  destruct (mouse_x m) as [mx|], (mouse_y m) as [my|]; simpl;
    try (intros [= <-]; reflexivity).
  match goal with |- context [if ?b then _ else _] => destruct b end; simpl;
    [|intros [= <-]; reflexivity].
  repeat match goal with
         | |- context [if ?b then None else _] => destruct b; simpl
         end;
    try discriminate.
  intros [= <-]. reflexivity.
Qed.

Lemma spawn_length (c : Canvas) (rand : nat -> num) (n : nat) :
  length (spawn c rand n) = n.
Proof.
  unfold spawn.
  assert (G : forall l acc,
             length (fold_left (fun ps i => ps ++ [reset c rand (6 * i)]) l acc)
             = (length acc + length l)%nat).
  { induction l as [|i l IH]; intros acc; simpl; [lia|].
    rewrite IH, length_app. simpl. lia. }
  rewrite G, length_seq. reflexivity.
Qed.

Lemma handle_length (f : Field) (e : Event) :
  length (particles (handle f e)) = length (particles f).
Proof. destruct e; simpl; try reflexivity. apply length_map. Qed.

Lemma run_length (es : list Event) (f : Field) :
  length (particles (run f es)) = length (particles f).
Proof.
  unfold run. revert f.
  induction es as [|e es IH]; intros f; simpl; [reflexivity|].
  rewrite IH. apply handle_length.
Qed.

Lemma connection_pairs_In (n i j : nat) :
  In (i, j) (connection_pairs n) <-> (i < j < n)%nat.
Proof.
  unfold connection_pairs. rewrite in_flat_map. split.
  - intros (k & Hk & Hin). apply in_map_iff in Hin as (l & Heq & Hl).
    apply in_seq in Hk. apply in_seq in Hl. inversion Heq; subst. lia.
  - intros Hij. exists i. split; [apply in_seq; lia|].
    apply in_map_iff. exists j. split; [reflexivity | apply in_seq; lia].
Qed.

Lemma NoDup_flat_map_keyed {A B : Type} (f : A -> list (A * B)) (l : list A) :
  List.NoDup l -> (forall a, List.NoDup (f a)) ->
  (forall a q, In q (f a) -> fst q = a) ->
  List.NoDup (flat_map f l).
Proof.
  intros Hl Hf Hkey. induction Hl as [|a l Ha Hl IH]; simpl; [constructor|].
  apply List.NoDup_app; [apply Hf | exact IH |].
  intros q Hq1 Hq2. apply in_flat_map in Hq2 as (b & Hb & Hq2).
  apply Hkey in Hq1, Hq2. apply Ha. congruence.
Qed.

Lemma connection_pairs_NoDup (n : nat) : List.NoDup (connection_pairs n).
Proof.
  unfold connection_pairs. apply NoDup_flat_map_keyed.
  - apply seq_NoDup.
  - intros i. apply Finite.Injective_map_NoDup; [|apply seq_NoDup].
    intros a b Heq. congruence.
  - intros i q Hq. apply in_map_iff in Hq as (j & <- & _). reflexivity.
Qed.

End AnyNumber.

(** ** Exact arithmetic *)

Section OnReals.
Local Open Scope R_scope.

Lemma real_int (z : Z) : real_lit z 0 = IZR z.
Proof.
  unfold real_lit. change (10 ^ Z.of_nat 0)%Z with 1%Z.
  unfold Rdiv. rewrite Rinv_1. apply Rmult_1_r.
Qed.


Lemma real_leb_true (a b : R) : real_leb a b = true <-> a <= b.
Proof. unfold real_leb. destruct (Rle_dec a b); split; intros; try lra; congruence. Qed.





End OnReals.

Section RepulsionOnReals.
Local Open Scope R_scope.

Ltac real_ops :=
  cbn [x y size speedX speedY opacity width height mouse_x mouse_y fst snd
       Js.add Js.sub Js.mul Js.div Js.sqrt Js.ltb Js.leb Js.eqb Js.max Js.min
       Js.int Js.lit Js.gtb real_Number] in *;
  rewrite ?real_int in *.




Lemma in_bounds_real (c : Canvas) (p : Particle) :
  in_bounds c p = true <-> (0 <= x p <= width c /\ 0 <= y p <= height c).
Proof.
  unfold in_bounds. real_ops. rewrite !andb_true_iff, !real_leb_true. tauto.
Qed.




End RepulsionOnReals.

Section RepulsionOnFloats.


End RepulsionOnFloats.

(** ** The steps of [update], the connection pass, the particle count *)

Section StepsAndConnections.



Lemma connection_alpha_tends_to_zero (eps : R) :
  (0 < eps)%R ->
  exists delta : R,
    (0 < delta)%R
    /\ forall d : R, (150 - delta < d < 150)%R ->
                     (0 < connection_alpha d < eps)%R.
Proof.
  intros Heps. exists (1875 * eps)%R. split; [lra|].
  intros d Hd. unfold connection_alpha.
  cbn [Js.sub Js.div Js.mul Js.int Js.lit real_Number]. rewrite !real_int.
  unfold real_lit. change (IZR (10 ^ Z.of_nat 2)) with 100%R. lra.
Qed.

(** C4. In the connection pass of a frame, the iteration for two particles at
    indices [i < j] occurs exactly once (and none for [(j, i)]); it draws no
    line when their distance is at least 150, and exactly one line, with alpha
    [0.08 * (1 - d / 150)], when the distance is below 150. The alpha is 0.08
    at distance 0 and, in exact arithmetic, tends to 0 as the distance tends
    to 150. *)
Theorem connections_follow_distance :
  (forall (ps : list (Particle (num := float))) (i j : nat) (pi pj : Particle),
      (i < j)%nat -> nth_error ps i = Some pi -> nth_error ps j = Some pj ->
      let d := distance (x pi) (y pi) (x pj) (y pj) in
      In (i, j) (connection_pairs (length ps))
      /\ ~ In (j, i) (connection_pairs (length ps))
      /\ List.NoDup (connection_pairs (length ps))
      /\ (PrimFloat.leb 150 d = true -> connect pi pj = [])
      /\ (PrimFloat.ltb d 150 = true ->
          connect pi pj
          = [StrokeLine (x pi) (y pi) (x pj) (y pj)
               (PrimFloat.mul (float_lit 8 2)
                  (PrimFloat.sub 1 (PrimFloat.div d 150)))]))
  /\ (forall f : Field (num := float),
        let ps := particles (fst (animate f)) in
        snd (animate f)
        = ClearRect (width (canvas f)) (height (canvas f))
            :: List.map draw ps
            ++ flat_map (fun ij =>
                           match nth_error ps (fst ij), nth_error ps (snd ij) with
                           | Some pi, Some pj => connect pi pj
                           | _, _ => []
                           end)
                        (connection_pairs (length ps)))
  /\ connection_alpha 0%float = float_lit 8 2
  /\ (forall eps : R, (0 < eps)%R ->
        exists delta : R,
          (0 < delta)%R
          /\ forall d : R, (150 - delta < d < 150)%R ->
                           (0 < connection_alpha d < eps)%R).
Proof.
  split; [|split; [|split]].
  - intros ps i j pi pj Hij Hi Hj d.
    assert (Hlen : (j < length ps)%nat)
      by (apply nth_error_Some; congruence).
    split; [apply connection_pairs_In; lia|].
    split; [rewrite connection_pairs_In; lia|].
    split; [apply connection_pairs_NoDup|].
    unfold connect. fold (distance (x pi) (y pi) (x pj) (y pj)). fold d.
    cbn [Js.ltb Js.int Js.lit float_Number float_lit float_of_Z].
    change (PrimFloat.of_uint63 (Uint63.of_Z 150)) with 150%float.
    split.
    + intros Hge. rewrite (leb_not_ltb _ _ Hge). reflexivity.
    + intros Hlt. rewrite Hlt. reflexivity.
  - intros f. reflexivity.
  - reflexivity.
  - apply connection_alpha_tends_to_zero.
Qed.

(** The theorem applied to two particles 5 apart and to two particles 500
    apart. *)
Lemma connections_follow_distance_witness :
  let p0 := {| x := 0; y := 0; size := 1; speedX := 0; speedY := 0;
               opacity := 1 |}%float in
  let p1 := {| x := 3; y := 4; size := 1; speedX := 0; speedY := 0;
               opacity := 1 |}%float in
  let p2 := {| x := 300; y := 400; size := 1; speedX := 0; speedY := 0;
               opacity := 1 |}%float in
  connect p0 p1
  = [StrokeLine 0%float 0%float 3%float 4%float
       (PrimFloat.mul (float_lit 8 2)
          (PrimFloat.sub 1 (PrimFloat.div 5 150)))]
  /\ connect p0 p2 = [].
Proof.
  intros p0 p1 p2. split.
  - apply (proj1 connections_follow_distance [p0; p1; p2] 0%nat 1%nat p0 p1);
      [lia | reflexivity | reflexivity | reflexivity].
  - apply (proj1 connections_follow_distance [p0; p1; p2] 0%nat 2%nat p0 p2);
      [lia | reflexivity | reflexivity | reflexivity].
Defined.

(** C7. With the canvas present, [initParticles] creates 40 particles when
    the viewport width is below 768 and 80 when it is at least 768; and no
    later event (a resize, a pointer move or leave, a frame) changes the
    number of particles. *)
Theorem particle_count_is_fixed :
  (forall (w : Window (num := float)) (rand : nat -> float),
      exists f : Field,
        initParticles true w rand = Some f
        /\ (PrimFloat.ltb (innerWidth w) 768 = true ->
            length (particles f) = 40%nat)
        /\ (PrimFloat.leb 768 (innerWidth w) = true ->
            length (particles f) = 80%nat))
  /\ (forall (num : Type) (N : Number num) (f : Field (num := num))
             (es : list Event),
        length (particles (run f es)) = length (particles f)).
Proof.
  split.
  - intros w rand. eexists. split; [reflexivity|].
    cbn [particles]. rewrite spawn_length.
    cbn [Js.ltb Js.int Js.lit float_Number float_lit float_of_Z].
    change (PrimFloat.of_uint63 (Uint63.of_Z 768)) with 768%float.
    split.
    + intros ->. reflexivity.
    + intros Hge. rewrite (leb_not_ltb _ _ Hge). reflexivity.
  - intros num N f es. apply run_length.
Qed.

(** The theorem applied to a 500 pixel wide and to a 1024 pixel wide
    viewport. *)
Lemma particle_count_is_fixed_witness :
  (exists f : Field,
      initParticles true {| innerWidth := 500; innerHeight := 800 |}%float
                    (fun _ => 0.5%float) = Some f
      /\ length (particles f) = 40%nat)
  /\ (exists f : Field,
         initParticles true {| innerWidth := 1024; innerHeight := 768 |}%float
                       (fun _ => 0.5%float) = Some f
         /\ length (particles f) = 80%nat).
Proof.
  split.
  - destruct (proj1 particle_count_is_fixed
                {| innerWidth := 500; innerHeight := 800 |}%float
                (fun _ => 0.5%float)) as (f & Hf & Hsmall & _).
    exists f. split; [exact Hf | apply Hsmall; reflexivity].
  - destruct (proj1 particle_count_is_fixed
                {| innerWidth := 1024; innerHeight := 768 |}%float
                (fun _ => 0.5%float)) as (f & Hf & _ & Hlarge).
    exists f. split; [exact Hf | apply Hlarge; reflexivity].
Defined.

End StepsAndConnections.

(** ** The 3D room *)

Section RoomProperties.
Import Room.

Lemma init3DRoom_second_call
    (c1 c2 : option Container) (w : World) :
  init3DRoom c2 (fst (init3DRoom c1 w)) = (fst (init3DRoom c1 w), Normal tt).
Proof.
  assert (Hguard : forall w', isInitialized w' = true ->
                              init3DRoom c2 w' = (w', Normal tt)).
  { intros w' Hw'. unfold init3DRoom, mbind, M_bind, get. rewrite Hw'.
    reflexivity. }
  apply Hguard.
  destruct w as [sc cam ren con aid ini rl lon ls att rls fr rc dpr].
  destruct ini; [reflexivity|].
  destruct c1 as [[cid cw ch]|]; vm_compute; reflexivity.
Qed.

(** What the first call builds, from the module as loaded. *)
Lemma init3DRoom_builds (c : Container) (dpr : float) :
  let w1 := fst (init3DRoom (Some c) (loaded dpr)) in
  snd (init3DRoom (Some c) (loaded dpr)) = Normal tt
  /\ isInitialized w1 = true
  /\ option_map (fun s => length (children s)) (scene w1) = Some 14%nat
  /\ renderersCreated w1 = 1%nat
  /\ length (lights w1) = 6%nat
  /\ attached w1 = [(elementId c, 0%nat)]
  /\ resizeListeners w1 = [elementId c]
  /\ frameRequests w1 = 1%nat
  /\ populated w1
  /\ lightsOn w1 = true
  /\ intensity_of ambient w1 = Some (num 4 1)
  /\ intensity_of deskLight w1 = Some (num 12 1)
  /\ intensity_of monitorLight w1 = Some (num 8 1)
  /\ intensity_of ledLight w1 = Some (num 6 1)
  /\ intensity_of ceilingLight w1 = Some (num 15 1)
  /\ intensity_of fillLight w1 = Some (num 3 1).
Proof.
  destruct c as [cid cw ch]. cbv zeta.
  do 8 (split; [vm_compute; reflexivity|]).
  split; [|repeat split; vm_compute; reflexivity].
  exists 0%nat, 1%nat, 2%nat, 3%nat, 4%nat, 5%nat.
  split; [vm_compute; reflexivity|]. split.
  - apply NoDup_ListNoDup. repeat constructor; simpl; lia.
  - vm_compute. repeat (apply List.Forall_cons; [lia|]). apply List.Forall_nil.
Qed.

(** C9. A call of [init3DRoom] that follows another call is a no-op: it
    completes normally and leaves the whole state (scene, camera, renderer,
    controls, light registry, light objects, page) as the first call left
    it, whatever the containers and the state before the first call. From
    the module as loaded, the first call has built one scene of 14 groups, one
    renderer and six lights, attached one canvas, registered one resize
    listener and requested one frame; so that is the state after both. *)
Theorem init3DRoom_twice_builds_once :
  (forall (c1 c2 : option Container) (w : World),
      init3DRoom c2 (fst (init3DRoom c1 w))
      = (fst (init3DRoom c1 w), Normal tt))
  /\ (forall (c : Container) (dpr : float),
        let w1 := fst (init3DRoom (Some c) (loaded dpr)) in
        option_map (fun s => length (children s)) (scene w1) = Some 14%nat
        /\ renderersCreated w1 = 1%nat
        /\ length (lights w1) = 6%nat
        /\ attached w1 = [(elementId c, 0%nat)]
        /\ resizeListeners w1 = [elementId c]
        /\ frameRequests w1 = 1%nat).
Proof.
  split; [apply init3DRoom_second_call|].
  intros c dpr w1.
  pose proof (init3DRoom_builds c dpr) as Hb. fold w1 in Hb. tauto.
Qed.

(** A toggle on a populated registry, from either state. *)
Lemma toggleLight_populated (w : World) (a d m l c f : nat) :
  roomLights w = {| ambient := Some a; deskLight := Some d;
                    monitorLight := Some m; ledLight := Some l;
                    ceilingLight := Some c; fillLight := Some f |} ->
  toggleLight w
  = (set_lights
       (if lightsOn w
        then alter (with_intensity (num 0 0)) f
               (alter (with_intensity (num 0 0)) c
                  (alter (with_intensity (num 1 1)) d
                     (alter (with_intensity (num 8 2)) a (lights w))))
        else alter (with_intensity (num 3 1)) f
               (alter (with_intensity (num 15 1)) c
                  (alter (with_intensity (num 12 1)) d
                     (alter (with_intensity (num 4 1)) a (lights w)))))
       (set_lightsOn (negb (lightsOn w)) w),
     Normal (negb (lightsOn w))).
Proof.
  intros Hrl.
  destruct w as [sc cam ren con aid ini rl lon ls att rls fr rc dpr].
  cbn [roomLights] in Hrl. subst rl. destruct lon; vm_compute; reflexivity.
Qed.

Lemma restore_intensity (v v' : float) (l : Light) :
  intensity l = v -> with_intensity v (with_intensity v' l) = l.
Proof. intros <-. destruct l; reflexivity. Qed.

Lemma lookup_four_alters (g1 g2 g3 g4 : Light -> Light)
    (i1 i2 i3 i4 k : nat) (ls : list Light) :
  i1 <> i2 -> i1 <> i3 -> i1 <> i4 -> i2 <> i3 -> i2 <> i4 -> i3 <> i4 ->
  alter g4 i4 (alter g3 i3 (alter g2 i2 (alter g1 i1 ls))) !! k
  = if decide (k = i1) then g1 <$> ls !! k
    else if decide (k = i2) then g2 <$> ls !! k
    else if decide (k = i3) then g3 <$> ls !! k
    else if decide (k = i4) then g4 <$> ls !! k
    else ls !! k.
Proof.
  intros. rewrite !list_lookup_alter.
  repeat case_decide; subst; congruence.
Qed.

(** C5. With the registry populated and the lights on, [toggleLight] returns
    [false] and sets the ambient, desk, ceiling and fill intensities to 0.08,
    0.1, 0 and 0, leaving the monitor and LED intensities as they were; a
    second call returns [true] and sets the four to 0.4, 1.2, 1.5 and 0.3,
    again leaving the other two. When the four were at their ON presets at
    the start, the state after the two calls is the state at the start. *)
Theorem toggleLight_twice_round_trip (w : World) :
  populated w -> lightsOn w = true ->
  let w1 := fst (toggleLight w) in
  let w2 := fst (toggleLight w1) in
  (snd (toggleLight w) = Normal false /\ lightsOn w1 = false
   /\ intensity_of ambient w1 = Some (num 8 2)
   /\ intensity_of deskLight w1 = Some (num 1 1)
   /\ intensity_of ceilingLight w1 = Some (num 0 0)
   /\ intensity_of fillLight w1 = Some (num 0 0)
   /\ intensity_of monitorLight w1 = intensity_of monitorLight w
   /\ intensity_of ledLight w1 = intensity_of ledLight w)
  /\ (snd (toggleLight w1) = Normal true /\ lightsOn w2 = true
      /\ intensity_of ambient w2 = Some (num 4 1)
      /\ intensity_of deskLight w2 = Some (num 12 1)
      /\ intensity_of ceilingLight w2 = Some (num 15 1)
      /\ intensity_of fillLight w2 = Some (num 3 1)
      /\ intensity_of monitorLight w2 = intensity_of monitorLight w
      /\ intensity_of ledLight w2 = intensity_of ledLight w)
  /\ (intensity_of ambient w = Some (num 4 1) ->
      intensity_of deskLight w = Some (num 12 1) ->
      intensity_of ceilingLight w = Some (num 15 1) ->
      intensity_of fillLight w = Some (num 3 1) ->
      w2 = w).
Proof.
  intros (a & d & m & l & c & f & Hrl & Hnd & Hall) Hon w1 w2.
  assert (Hne : a <> d /\ a <> m /\ a <> l /\ a <> c /\ a <> f /\ d <> m
                /\ d <> l /\ d <> c /\ d <> f /\ m <> l /\ m <> c /\ m <> f
                /\ l <> c /\ l <> f /\ c <> f).
  { apply NoDup_ListNoDup in Hnd.
    repeat match goal with
           | Hn : List.NoDup (_ :: _) |- _ => inversion_clear Hn
           end.
    simpl in *. intuition congruence. }
  destruct Hne as (? & ? & ? & ? & ? & ? & ? & ? & ? & ? & ? & ? & ? & ? & ?).
  destruct w as [sc cam ren con aid ini rl lon ls att rls fr rc dpr].
  cbn [roomLights lightsOn lights] in Hrl, Hon, Hall. subst rl lon.
  assert (Hsome : forall k, In k [a; d; m; l; c; f] -> is_Some (ls !! k)).
  { intros k Hk. apply lookup_lt_is_Some.
    rewrite List.Forall_forall in Hall. apply Hall, Hk. }
  destruct (Hsome a) as [la Ha]; [simpl; tauto|].
  destruct (Hsome d) as [ld Hd]; [simpl; tauto|].
  destruct (Hsome c) as [lc Hc]; [simpl; tauto|].
  destruct (Hsome f) as [lf Hf]; [simpl; tauto|].
  subst w2 w1.
  erewrite toggleLight_populated by reflexivity.
  unfold set_lights, set_lightsOn.
  cbn [fst snd lightsOn negb scene camera renderer controls animationId
       isInitialized roomLights lights attached resizeListeners frameRequests
       renderersCreated devicePixelRatio].
  erewrite toggleLight_populated by reflexivity.
  unfold set_lights, set_lightsOn.
  cbn [fst snd lightsOn negb scene camera renderer controls animationId
       isInitialized roomLights lights attached resizeListeners frameRequests
       renderersCreated devicePixelRatio].
  set (L1 := alter _ f (alter _ c (alter _ d (alter _ a ls)))).
  assert (E1 : forall k, L1 !! k = _)
    by (intros k; apply (lookup_four_alters _ _ _ _ a d c f k ls); assumption).
  set (L2 := alter _ f (alter _ c (alter _ d (alter _ a L1)))).
  assert (E2 : forall k, L2 !! k = _)
    by (intros k; apply (lookup_four_alters _ _ _ _ a d c f k L1); assumption).
  clearbody L1 L2.
  unfold intensity_of.
  cbn [roomLights lights ambient deskLight monitorLight ledLight ceilingLight
       fillLight mbind option_bind].
  split; [|split].
  - repeat split; rewrite E1; repeat (case_decide; try congruence);
      rewrite ?Ha, ?Hd, ?Hc, ?Hf; reflexivity.
  - repeat split; rewrite E2, ?E1; repeat (case_decide; try congruence);
      rewrite ?Ha, ?Hd, ?Hc, ?Hf; reflexivity.
  - rewrite Ha, Hd, Hc, Hf. cbn [mbind option_bind].
    intros [= Ia] [= Id] [= Ic] [= If]. f_equal.
    apply list_eq. intros k. rewrite E2.
    repeat case_decide; subst; rewrite E1;
      repeat (case_decide; try congruence);
      rewrite ?Ha, ?Hd, ?Hc, ?Hf; cbn [fmap option_fmap option_map];
      rewrite ?restore_intensity by assumption; reflexivity.
Qed.

Lemma built_populated : populated Samples.built.
Proof.
  exists 0%nat, 1%nat, 2%nat, 3%nat, 4%nat, 5%nat.
  split; [vm_compute; reflexivity|]. split.
  - apply NoDup_ListNoDup. repeat constructor; simpl; lia.
  - vm_compute. repeat (apply List.Forall_cons; [lia|]). apply List.Forall_nil.
Qed.

(** The theorem applied to the state the first [init3DRoom] leaves. *)
Lemma toggleLight_twice_round_trip_witness :
  fst (toggleLight (fst (toggleLight Samples.built))) = Samples.built.
Proof.
  apply (toggleLight_twice_round_trip Samples.built built_populated);
    vm_compute; reflexivity.
Defined.

(** C6, as amended. When [toggleLight] is called before the scene has been
    built (every registry slot is null), the call throws a [TypeError] and
    writes no light intensity: apart from the on/off flag, the state is as
    before the call. *)
Theorem toggleLight_before_build_throws (w : World) :
  unbuilt w ->
  snd (toggleLight w) = Throw TypeError
  /\ lights (fst (toggleLight w)) = lights w
  /\ set_lightsOn (lightsOn w) (fst (toggleLight w)) = w.
Proof.
  unfold unbuilt. intros Hun.
  destruct w as [sc cam ren con aid ini rl lon ls att rls fr rc dpr].
  cbn [roomLights] in Hun. subst rl.
  destruct lon; vm_compute; repeat split; reflexivity.
Qed.

(** The theorem applied to the module as loaded. *)
Lemma toggleLight_before_build_throws_witness :
  snd (toggleLight (loaded 1%float)) = Throw TypeError
  /\ lights (fst (toggleLight (loaded 1%float))) = [].
Proof.
  destruct (toggleLight_before_build_throws (loaded 1%float) eq_refl)
    as (Hthrow & Hlights & _).
  split; [exact Hthrow | exact Hlights].
Defined.

(** C6, as stated, fails: the failed call has flipped the on/off flag. From
    the module as loaded, a toggle before the build throws and leaves the flag
    off; after the build, the next toggle then returns [true] (and sets the ON
    presets the lights already have), where it returns [false] when no call
    preceded the build. *)
Lemma toggleLight_before_build_flips_flag :
  ~ (forall w : World, unbuilt w ->
                       lightsOn (fst (toggleLight w)) = lightsOn w)
  /\ (let w0 := loaded 1%float in
      let w1 := fst (toggleLight w0) in
      unbuilt w0
      /\ snd (toggleLight w0) = Throw TypeError
      /\ lightsOn w0 = true /\ lightsOn w1 = false
      /\ snd (toggleLight (fst (init3DRoom (Some Samples.wrapper) w1)))
         = Normal true
      /\ snd (toggleLight (fst (init3DRoom (Some Samples.wrapper) w0)))
         = Normal false).
Proof.
  split.
  - intros Hall. specialize (Hall (loaded 1%float) eq_refl).
    vm_compute in Hall. discriminate.
  - cbv zeta. split; [reflexivity|]. repeat split; vm_compute; reflexivity.
Qed.

End RoomProperties.

(** ** The room across builds, toggles and disposals *)

Section RoomLifecycle.
Import Room RoomApi.

Lemma createLighting_fresh (w : World) :
  createLighting w
  = (set_roomLights (registry_from (length (lights w)))
       (set_lights (lights w ++ fresh_lights) w),
     Normal (let n := length (lights w) in
             Group [LightNode n; LightNode (n + 1); LightNode (n + 2);
                    LightNode (n + 3); LightNode (n + 4); Fixture;
                    LightNode (n + 5)])).
Proof.
  destruct w as [sc cam ren con aid ini rl lon ls att rls fr rc dpr].
  cbv -[app length Nat.add].
  rewrite !length_app. cbn [length]. rewrite <- !app_assoc.
  rewrite <- !Nat.add_assoc. reflexivity.
Qed.

(** The first call on a state that is not initialized, with a container. *)
Lemma init3DRoom_fresh (c : Container) (w : World) :
  isInitialized w = false ->
  let w1 := fst (init3DRoom (Some c) w) in
  snd (init3DRoom (Some c) w) = Normal tt
  /\ isInitialized w1 = true
  /\ roomLights w1 = registry_from (length (lights w))
  /\ lights w1 = lights w ++ fresh_lights
  /\ lightsOn w1 = lightsOn w
  /\ resizeListeners w1 = resizeListeners w ++ [elementId c]
  /\ attached w1 = attached w ++ [(elementId c, renderersCreated w)]
  /\ renderersCreated w1 = S (renderersCreated w)
  /\ animationId w1 = Some (S (frameRequests w))
  /\ option_map (fun s => length (children s)) (scene w1) = Some 14%nat
  /\ (is_Some (camera w1) /\ is_Some (renderer w1) /\ is_Some (controls w1)).
Proof.
  intros Hini.
  destruct w as [sc cam ren con aid ini rl lon ls att rls fr rc dpr].
  destruct c as [cid cw ch]. cbn [isInitialized] in Hini. subst ini.
  cbv -[app length Nat.add is_Some].
  rewrite !length_app. cbn [length]. rewrite <- !app_assoc.
  rewrite <- !Nat.add_assoc.
  repeat split; try reflexivity; eexists; reflexivity.
Qed.

Lemma dispose3DRoom_fields (w : World) :
  let w1 := fst (dispose3DRoom w) in
  snd (dispose3DRoom w) = Normal tt
  /\ scene w1 = None /\ camera w1 = None /\ renderer w1 = None
  /\ controls w1 = None /\ animationId w1 = None
  /\ isInitialized w1 = false
  /\ roomLights w1 = roomLights w /\ lights w1 = lights w
  /\ lightsOn w1 = lightsOn w
  /\ resizeListeners w1 = resizeListeners w
  /\ renderersCreated w1 = renderersCreated w
  /\ frameRequests w1 = frameRequests w
  /\ attached w1
     = match renderer w with
       | Some r => filter (fun ac => negb (Nat.eqb (snd ac) (domElement r)))
                          (attached w)
       | None => attached w
       end.
Proof.
  destruct w as [sc cam ren con aid ini rl lon ls att rls fr rc dpr].
  destruct aid, ren; cbv -[filter negb Nat.eqb]; repeat split; reflexivity.
Qed.

Lemma lookup_fresh (ls : list Light) (k : nat) :
  (ls ++ fresh_lights) !! (length ls + k)%nat = fresh_lights !! k.
Proof.
  rewrite lookup_app_r by lia. f_equal. lia.
Qed.


Lemma intensity_of_fresh (w : World) (ls : list Light) :
  roomLights w = registry_from (length ls) ->
  lights w = ls ++ fresh_lights ->
  intensity_of ambient w = Some (num 4 1)
  /\ intensity_of deskLight w = Some (num 12 1)
  /\ intensity_of monitorLight w = Some (num 8 1)
  /\ intensity_of ledLight w = Some (num 6 1)
  /\ intensity_of ceilingLight w = Some (num 15 1)
  /\ intensity_of fillLight w = Some (num 3 1).
Proof.
  intros Hr Hl. unfold intensity_of. rewrite Hr, Hl.
  cbn [registry_from ambient deskLight monitorLight ledLight ceilingLight
       fillLight mbind option_bind].
  rewrite !lookup_fresh.
  replace (length ls) with (length ls + 0)%nat at 1 by lia.
  rewrite lookup_fresh. repeat split; reflexivity.
Qed.

(** [dispose3DRoom] never fails. It clears the scene, the camera, the renderer,
    the controls, the pending frame and the build flag, and detaches the
    renderer's canvas; it keeps the light registry, the light objects, the
    on/off flag and the resize listeners; and a second call in succession
    changes nothing. *)
Theorem dispose3DRoom_clears_and_is_idempotent (w : World) :
  let w1 := fst (dispose3DRoom w) in
  snd (dispose3DRoom w) = Normal tt
  /\ (scene w1 = None /\ camera w1 = None /\ renderer w1 = None
      /\ controls w1 = None /\ animationId w1 = None
      /\ isInitialized w1 = false)
  /\ (forall r k, renderer w = Some r -> ~ In (k, domElement r) (attached w1))
  /\ (roomLights w1 = roomLights w /\ lights w1 = lights w
      /\ lightsOn w1 = lightsOn w
      /\ resizeListeners w1 = resizeListeners w)
  /\ dispose3DRoom w1 = (w1, Normal tt).
Proof.
  intros w1.
  destruct (dispose3DRoom_fields w)
    as (H0 & H1 & H2 & H3 & H4 & H5 & H6 & H7 & H8 & H9 & H10 & _ & _ & H13).
  fold w1 in H1, H2, H3, H4, H5, H6, H7, H8, H9, H10, H13.
  split; [exact H0|]. split; [tauto|]. split; [|split; [tauto|]].
  - intros r k Hr Hin. rewrite H13, Hr in Hin.
    apply list_elem_of_In, list_elem_of_filter in Hin as [Hne _].
    cbn [snd] in Hne. rewrite Nat.eqb_refl in Hne. exact Hne.
  - clearbody w1.
    destruct w1 as [sc cam ren con aid ini rl lon ls att rls fr rc dpr].
    cbn [scene camera renderer controls animationId isInitialized]
      in H1, H2, H3, H4, H5, H6.
    subst. vm_compute. reflexivity.
Qed.


Lemma init3DRoom_guard (k : option Container) (w : World) :
  isInitialized w = true -> init3DRoom k w = (w, Normal tt).
Proof.
  intros Hw. unfold init3DRoom, mbind, M_bind, get. rewrite Hw. reflexivity.
Qed.

Lemma init3DRoom_null (w : World) :
  isInitialized w = false ->
  let w1 := fst (init3DRoom None w) in
  snd (init3DRoom None w) = Throw TypeError
  /\ isInitialized w1 = true
  /\ option_map (fun s => length (children s)) (scene w1) = Some 0%nat
  /\ camera w1 = camera w /\ renderer w1 = renderer w
  /\ controls w1 = controls w
  /\ roomLights w1 = roomLights w /\ lights w1 = lights w
  /\ lightsOn w1 = lightsOn w
  /\ resizeListeners w1 = resizeListeners w /\ attached w1 = attached w.
Proof.
  intros Hini.
  destruct w as [sc cam ren con aid ini rl lon ls att rls fr rc dpr].
  cbn [isInitialized] in Hini. subst ini.
  cbv. repeat split; reflexivity.
Qed.


(** A failed first call blocks the build. On a state that is not initialized,
    [init3DRoom] with a null container throws a [TypeError] after it has set
    the build flag and created an empty scene; it creates no camera, renderer,
    controls or lights and registers nothing. A later call with a valid
    container then returns at the guard and builds nothing. *)
Theorem init3DRoom_null_container_blocks_build (c : Container) (w : World) :
  isInitialized w = false ->
  let w1 := fst (init3DRoom None w) in
  snd (init3DRoom None w) = Throw TypeError
  /\ isInitialized w1 = true
  /\ option_map (fun s => length (children s)) (scene w1) = Some 0%nat
  /\ (camera w1 = camera w /\ renderer w1 = renderer w
      /\ controls w1 = controls w /\ roomLights w1 = roomLights w
      /\ lights w1 = lights w /\ resizeListeners w1 = resizeListeners w
      /\ attached w1 = attached w)
  /\ init3DRoom (Some c) w1 = (w1, Normal tt).
Proof.
  intros Hini w1.
  destruct (init3DRoom_null w Hini)
    as (H0 & H1 & H2 & H3 & H4 & H5 & H6 & H7 & _ & H9 & H10).
  fold w1 in H1, H2, H3, H4, H5, H6, H7, H9, H10.
  split; [exact H0|]. split; [exact H1|]. split; [exact H2|].
  split; [tauto|]. apply init3DRoom_guard, H1.
Qed.

(** The theorem applied to the module as loaded: the room stays unbuilt. *)
Lemma init3DRoom_null_container_blocks_build_witness :
  let w1 := fst (init3DRoom None (loaded 1%float)) in
  snd (init3DRoom None (loaded 1%float)) = Throw TypeError
  /\ init3DRoom (Some Samples.wrapper) w1 = (w1, Normal tt)
  /\ renderer w1 = None.
Proof.
  destruct (init3DRoom_null_container_blocks_build
              Samples.wrapper (loaded 1%float) eq_refl)
    as (H0 & _ & _ & (_ & Hr & _) & Hguard).
  split; [exact H0|]. split; [exact Hguard | exact Hr].
Defined.

Lemma four_alters_same (g1 g2 g3 g4 : Light -> Light)
    (i1 i2 i3 i4 : nat) (ls : list Light) :
  i1 <> i2 -> i1 <> i3 -> i1 <> i4 -> i2 <> i3 -> i2 <> i4 -> i3 <> i4 ->
  g1 <$> ls !! i1 = ls !! i1 -> g2 <$> ls !! i2 = ls !! i2 ->
  g3 <$> ls !! i3 = ls !! i3 -> g4 <$> ls !! i4 = ls !! i4 ->
  alter g4 i4 (alter g3 i3 (alter g2 i2 (alter g1 i1 ls))) = ls.
Proof.
  intros. apply list_eq. intros k. rewrite lookup_four_alters by assumption.
  repeat case_decide; subst; auto.
Qed.

(** The on/off flag survives a disposal, the light intensities do not. When
    the lights are off, disposing the room and building it again gives new
    lights at their ON presets while the flag still says off; the next
    [toggleLight] then returns [true] and changes nothing but the flag. *)
Theorem lights_flag_out_of_step_after_rebuild (c : Container) (w : World) :
  lightsOn w = false ->
  let w1 := fst (init3DRoom (Some c) (fst (dispose3DRoom w))) in
  lightsOn w1 = false
  /\ intensity_of ambient w1 = Some (num 4 1)
  /\ intensity_of deskLight w1 = Some (num 12 1)
  /\ intensity_of ceilingLight w1 = Some (num 15 1)
  /\ intensity_of fillLight w1 = Some (num 3 1)
  /\ toggleLight w1 = (set_lightsOn true w1, Normal true).
Proof.
  intros Hoff w1.
  destruct (dispose3DRoom_fields w)
    as (_ & _ & _ & _ & _ & _ & Hini & _ & Hl & Hon & _).
  destruct (init3DRoom_fresh c _ Hini)
    as (_ & _ & H2 & H3 & H4 & _).
  fold w1 in H2, H3, H4. rewrite Hl in H2, H3. rewrite Hon, Hoff in H4.
  destruct (intensity_of_fresh w1 (lights w) H2 H3)
    as (Ia & Id & _ & _ & Ic & If).
  split; [exact H4|]. do 4 (split; [assumption|]).
  erewrite toggleLight_populated by exact H2. rewrite H4. cbn [negb].
  rewrite H3.
  rewrite four_alters_same; try lia;
    try (rewrite ?lookup_fresh;
         try (replace (length (lights w)) with (length (lights w) + 0)%nat
               at 1 2 by lia; rewrite lookup_fresh);
         reflexivity).
  rewrite <- H3. clear.
  destruct w1 as [sc cam ren con aid ini rl lon ls att rls fr rc dpr].
  reflexivity.
Qed.

(** The theorem applied to the built room after one toggle (lights off). *)
Lemma lights_flag_out_of_step_after_rebuild_witness :
  let w := fst (toggleLight Samples.built) in
  let w1 := fst (init3DRoom (Some Samples.wrapper) (fst (dispose3DRoom w))) in
  toggleLight w1 = (set_lightsOn true w1, Normal true).
Proof.
  intros w w1.
  assert (Hoff : lightsOn w = false) by (vm_compute; reflexivity).
  exact (proj2 (proj2 (proj2 (proj2 (proj2
           (lights_flag_out_of_step_after_rebuild Samples.wrapper w Hoff)))))).
Defined.

Lemma call_resizeListeners (w : World) (k : Call) :
  exists l, resizeListeners (call w k) = resizeListeners w ++ l.
Proof.
  destruct k as [[c|]| |]; cbn [call].
  - destruct (isInitialized w) eqn:Hini.
    + rewrite init3DRoom_guard by assumption. exists []. cbn [fst].
      rewrite app_nil_r. reflexivity.
    + exists [elementId c]. apply (init3DRoom_fresh c w Hini).
  - destruct (isInitialized w) eqn:Hini.
    + rewrite init3DRoom_guard by assumption. exists []. cbn [fst].
      rewrite app_nil_r. reflexivity.
    + exists []. rewrite app_nil_r. apply (init3DRoom_null w Hini).
  - exists []. rewrite app_nil_r.
    destruct w as [sc cam ren con aid ini rl lon ls att rls fr rc dpr].
    destruct rl as [[a|] [d|] [m|] [l|] [c|] [f|]], lon;
      vm_compute; reflexivity.
  - exists []. rewrite app_nil_r. apply (dispose3DRoom_fields w).
Qed.

Lemma open_close_cycle (c : Container) (w : World) :
  isInitialized w = false ->
  let w' := call (call w (CallInit (Some c))) CallDispose in
  isInitialized w' = false
  /\ resizeListeners w' = resizeListeners w ++ [elementId c].
Proof.
  intros Hini w'. subst w'. cbn [call].
  destruct (dispose3DRoom_fields (fst (init3DRoom (Some c) w)))
    as (_ & _ & _ & _ & _ & _ & H6 & _ & _ & _ & H10 & _).
  split; [exact H6|]. rewrite H10. apply (init3DRoom_fresh c w Hini).
Qed.

(** Resize listeners are never removed. No call of the module removes a
    registered resize listener, and every build adds one: after [n] rounds of
    [init3DRoom] and [dispose3DRoom], [n] more listeners are registered on the
    window, each still holding the container of a disposed room. *)
Theorem resize_listeners_accumulate :
  (forall (w : World) (k : Call),
      exists l, resizeListeners (call w k) = resizeListeners w ++ l)
  /\ (forall (c : Container) (n : nat) (w : World),
        resizeListeners
          (calls (fst (dispose3DRoom w))
                 (concat (repeat [CallInit (Some c); CallDispose] n)))
        = resizeListeners w ++ repeat (elementId c) n).
Proof.
  split; [apply call_resizeListeners|].
  intros c n w.
  destruct (dispose3DRoom_fields w)
    as (_ & _ & _ & _ & _ & _ & Hini & _ & _ & _ & Hl & _).
  rewrite <- Hl. revert Hini. generalize (fst (dispose3DRoom w)). clear.
  induction n as [|n IH]; intros w Hini; cbn [repeat concat].
  - cbn. rewrite app_nil_r. reflexivity.
  - destruct (open_close_cycle c w Hini) as [Hini' Hl'].
    cbn [app calls fold_left]. fold (calls (call (call w (CallInit (Some c)))
                                              CallDispose)
                                           (concat (repeat [CallInit (Some c);
                                                            CallDispose] n))).
    rewrite (IH _ Hini'), Hl', <- app_assoc. reflexivity.
Qed.



End RoomLifecycle.

(** ** Particles over many frames *)

Section NaNParticles.
Local Open Scope float_scope.

Lemma nan_add_l (a b : float) :
  PrimFloat.is_nan a = true -> PrimFloat.is_nan (a + b) = true.
Proof.
  rewrite !is_nan_spec, add_spec. intros ->. reflexivity.
Qed.

Lemma nan_add_r (a b : float) :
  PrimFloat.is_nan b = true -> PrimFloat.is_nan (a + b) = true.
Proof.
  rewrite !is_nan_spec, add_spec. intros ->.
  destruct (Prim2SF a); reflexivity.
Qed.

Lemma nan_sub_l (a b : float) :
  PrimFloat.is_nan a = true -> PrimFloat.is_nan (a - b) = true.
Proof.
  rewrite !is_nan_spec, sub_spec. intros ->. reflexivity.
Qed.

Lemma nan_mul_self (a : float) :
  PrimFloat.is_nan a = true -> PrimFloat.is_nan (a * a) = true.
Proof.
  rewrite !is_nan_spec, mul_spec. intros ->. reflexivity.
Qed.

Lemma nan_sqrt (a : float) :
  PrimFloat.is_nan a = true -> PrimFloat.is_nan (PrimFloat.sqrt a) = true.
Proof.
  rewrite !is_nan_spec, sqrt_spec. intros ->. reflexivity.
Qed.

Lemma nan_ltb_l (a b : float) :
  PrimFloat.is_nan a = true -> PrimFloat.ltb a b = false.
Proof.
  rewrite is_nan_spec, FloatAxioms.ltb_spec. intros ->. reflexivity.
Qed.

Lemma nan_clamp (w t : float) :
  PrimFloat.is_nan t = true ->
  PrimFloat.is_nan (float_max 0 (float_min w t)) = true.
Proof.
  intros Ht. unfold float_min. rewrite Ht, orb_true_r. reflexivity.
Qed.

(** The distance is NaN as soon as one coordinate of the first point is. *)
Lemma nan_distance (ax ay bx by_ : float) :
  PrimFloat.is_nan ax = true \/ PrimFloat.is_nan ay = true ->
  PrimFloat.is_nan (distance ax ay bx by_) = true.
Proof.
  unfold distance.
  cbn [Js.add Js.sub Js.mul Js.sqrt float_Number].
  intros [Hx|Hy]; apply nan_sqrt.
  - apply nan_add_l, nan_mul_self, nan_sub_l, Hx.
  - apply nan_add_r, nan_mul_self, nan_sub_l, Hy.
Qed.

Lemma nan_sub_r (a b : float) :
  PrimFloat.is_nan b = true -> PrimFloat.is_nan (a - b) = true.
Proof.
  rewrite !is_nan_spec, sub_spec. intros ->.
  destruct (Prim2SF a); reflexivity.
Qed.

Lemma nan_distance_r (ax ay bx by_ : float) :
  PrimFloat.is_nan bx = true \/ PrimFloat.is_nan by_ = true ->
  PrimFloat.is_nan (distance ax ay bx by_) = true.
Proof.
  unfold distance.
  cbn [Js.add Js.sub Js.mul Js.sqrt float_Number].
  intros [Hx|Hy]; apply nan_sqrt.
  - apply nan_add_l, nan_mul_self, nan_sub_r, Hx.
  - apply nan_add_r, nan_mul_self, nan_sub_r, Hy.
Qed.

Lemma connect_by_distance {num : Type} `{Number num} (p q : Particle) :
  connect p q
  = if Js.ltb (distance (x p) (y p) (x q) (y q)) (Js.int 150)
    then [StrokeLine (x p) (y p) (x q) (y q)
            (connection_alpha (distance (x p) (y p) (x q) (y q)))]
    else [].
Proof. reflexivity. Qed.

Lemma update_nan (c : Canvas) (m : Mouse) (p : Particle) :
  (PrimFloat.is_nan (x p) = true ->
   PrimFloat.is_nan (x (update c m p)) = true)
  /\ (PrimFloat.is_nan (y p) = true ->
      PrimFloat.is_nan (y (update c m p)) = true).
Proof.
  unfold update.
  cbn [Js.add Js.sub Js.mul Js.div Js.sqrt Js.ltb Js.max Js.min Js.int
       Js.lit float_Number float_lit float_of_Z].
  destruct (mouse_x m) as [mx|], (mouse_y m) as [my|]; cbn [x y];
    try (split; intros Hn; apply nan_clamp, nan_add_l, Hn).
  fold (distance (x p + speedX p) (y p + speedY p) mx my).
  split; intros Hn.
  - rewrite nan_ltb_l
      by (apply nan_distance; left; apply nan_add_l, Hn).
    cbn [x]. apply nan_clamp, nan_add_l, Hn.
  - rewrite nan_ltb_l
      by (apply nan_distance; right; apply nan_add_l, Hn).
    cbn [y]. apply nan_clamp, nan_add_l, Hn.
Qed.

Lemma handle_nan (f : Field) (e : Event) (i : nat) (p : Particle) :
  nth_error (particles f) i = Some p ->
  PrimFloat.is_nan (x p) = true \/ PrimFloat.is_nan (y p) = true ->
  exists p', nth_error (particles (handle f e)) i = Some p'
             /\ (PrimFloat.is_nan (x p') = true
                 \/ PrimFloat.is_nan (y p') = true).
Proof.
  intros Hi Hn. destruct e; cbn [handle particles animate fst]; eauto.
  exists (update (canvas f) (mouse f) p). split.
  - rewrite nth_error_map, Hi. reflexivity.
  - destruct (update_nan (canvas f) (mouse f) p) as [Hx Hy]. tauto.
Qed.

(** A particle with a NaN coordinate is lost for good: whatever events follow
    (frames, pointer moves, resizes), the particle at the same index still has
    a NaN coordinate, and the connection pass draws no line from it or to
    it. *)
Theorem nan_particle_never_recovers
    (f : Field) (es : list Event) (i : nat) (p : Particle) :
  nth_error (particles f) i = Some p ->
  PrimFloat.is_nan (x p) = true \/ PrimFloat.is_nan (y p) = true ->
  (exists p', nth_error (particles (run f es)) i = Some p'
              /\ (PrimFloat.is_nan (x p') = true
                  \/ PrimFloat.is_nan (y p') = true))
  /\ (forall q : Particle, connect p q = [] /\ connect q p = []).
Proof.
  intros Hi Hn. split.
  - unfold run. revert f p Hi Hn.
    induction es as [|e es IH]; intros f p Hi Hn; cbn [fold_left]; [eauto|].
    destruct (handle_nan f e i p Hi Hn) as (p' & Hi' & Hn').
    exact (IH _ _ Hi' Hn').
  - intros q. rewrite !connect_by_distance.
    cbn [Js.ltb float_Number].
    rewrite (nan_ltb_l (distance (x p) (y p) (x q) (y q)))
      by (apply nan_distance, Hn).
    rewrite (nan_ltb_l (distance (x q) (y q) (x p) (y p)))
      by (apply nan_distance_r, Hn).
    split; reflexivity.
Qed.

(** The theorem applied to the particle that met the pointer at (100, 50),
    three frames later. *)
Lemma nan_particle_never_recovers_witness :
  let lost := update Samples.canvas800 (Samples.pointer_at 100 50)
                     Samples.meeting_particle in
  let f := {| canvas := Samples.canvas800;
              particles := [Samples.free_particle; lost];
              mouse := Samples.no_pointer |} in
  exists p', nth_error (particles (run f [Frame; Frame; Frame])) 1 = Some p'
             /\ (PrimFloat.is_nan (x p') = true
                 \/ PrimFloat.is_nan (y p') = true).
Proof.
  intros lost f.
  apply (proj1 (nan_particle_never_recovers f [Frame; Frame; Frame] 1 lost
                  eq_refl (or_introl eq_refl))).
Defined.

End NaNParticles.

Section FramesOnFloats.
Local Open Scope float_scope.

(** After every frame each particle is inside the canvas as it is at that
    frame, unless one of its coordinates is NaN; in particular the first frame
    after a resize brings every particle into the new bounds. *)
Theorem frame_brings_particles_into_canvas (f : Field) :
  PrimFloat.leb 0 (width (canvas f)) = true ->
  PrimFloat.leb 0 (height (canvas f)) = true ->
  List.Forall
    (fun p => (PrimFloat.is_nan (x p) = true \/ PrimFloat.is_nan (y p) = true)
              \/ in_bounds (canvas f) p = true)
    (particles (handle f Frame))
  /\ forall es, canvas (run f (es ++ [Frame])) = canvas (run f es)
                /\ (PrimFloat.leb 0 (width (canvas (run f es))) = true ->
                    PrimFloat.leb 0 (height (canvas (run f es))) = true ->
                    List.Forall
                      (fun p => (PrimFloat.is_nan (x p) = true
                                 \/ PrimFloat.is_nan (y p) = true)
                                \/ in_bounds (canvas (run f es)) p = true)
                      (particles (run f (es ++ [Frame])))).
Proof.
  assert (Hframe : forall g : Field,
             PrimFloat.leb 0 (width (canvas g)) = true ->
             PrimFloat.leb 0 (height (canvas g)) = true ->
             List.Forall
               (fun p => (PrimFloat.is_nan (x p) = true
                          \/ PrimFloat.is_nan (y p) = true)
                         \/ in_bounds (canvas g) p = true)
               (particles (handle g Frame))).
  { intros g Hw Hh. cbn [handle animate fst particles].
    apply List.Forall_forall. intros p Hp.
    apply in_map_iff in Hp as (p0 & <- & _).
    apply update_in_bounds_or_nan; assumption. }
  intros Hw Hh. split; [apply Hframe; assumption|].
  intros es. unfold run. rewrite fold_left_app. cbn [fold_left].
  split; [reflexivity|]. apply Hframe.
Qed.

(** The theorem applied to a field of two particles that is resized to
    400 x 300 before the frame. *)
Lemma frame_brings_particles_into_canvas_witness :
  let f := {| canvas := Samples.canvas800;
              particles := [Samples.free_particle;
                            {| x := 790; y := 590; size := 1; speedX := 0.25;
                               speedY := 0.25; opacity := 0.5 |}];
              mouse := Samples.no_pointer |} in
  let small := {| innerWidth := 400; innerHeight := 300 |} in
  List.Forall
    (fun p => (PrimFloat.is_nan (x p) = true \/ PrimFloat.is_nan (y p) = true)
              \/ in_bounds (resize small) p = true)
    (particles (run f ([Resize small] ++ [Frame]))).
Proof.
  intros f small.
  apply (proj2 (frame_brings_particles_into_canvas f eq_refl eq_refl)
               [Resize small]); reflexivity.
Defined.

End FramesOnFloats.

Section ConnectionCount.
Context {num : Type} `{Number num}.

Lemma connection_rows_length (n k a : nat) :
  (a + k = n)%nat ->
  (2 * length (flat_map
                 (fun i => List.map (fun j => (i, j)) (seq (i + 1) (n - (i + 1))))
                 (seq a k))
   = k * (k - 1))%nat.
Proof.
  revert a. induction k as [|k IH]; intros a Hak; [reflexivity|].
  cbn [seq flat_map]. rewrite length_app, length_map, length_seq.
  specialize (IH (S a) ltac:(lia)).
  replace (n - (a + 1))%nat with k by lia.
  replace (S k - 1)%nat with k by lia.
  destruct k as [|k]; [cbn in *; lia|].
  replace (S k - 1)%nat with k in IH by lia.
  revert IH. generalize (length
    (flat_map (fun i => List.map (fun j => (i, j)) (seq (i + 1) (n - (i + 1))))
              (seq (S a) (S k)))).
  intros L IH. nia.
Qed.

Lemma flat_map_length_le {A B : Type} (g : A -> list B) (l : list A) :
  (forall a, length (g a) <= 1)%nat ->
  (length (flat_map g l) <= length l)%nat.
Proof.
  intros Hg. induction l as [|a l IH]; [reflexivity|].
  cbn [flat_map length]. rewrite length_app. specialize (Hg a). lia.
Qed.

(** The connection pass of a frame with [n] particles runs exactly
    [n (n - 1) / 2] iterations and draws at most that many lines: 780 for the
    40 particles of a narrow viewport, 3160 for 80. *)
Theorem connections_are_at_most_all_pairs (ps : list Particle) :
  (2 * length (connection_pairs (length ps))
   = length ps * (length ps - 1))%nat
  /\ (2 * length (connections ps) <= length ps * (length ps - 1))%nat.
Proof.
  assert (Hpairs : (2 * length (connection_pairs (length ps))
                    = length ps * (length ps - 1))%nat)
    by (apply connection_rows_length; reflexivity).
  assert (Hle : (length (connections ps)
                 <= length (connection_pairs (length ps)))%nat).
  { unfold connections. apply flat_map_length_le. intros [i j]. cbn [fst snd].
    destruct (nth_error ps i), (nth_error ps j); cbn [length]; try lia.
    rewrite connect_by_distance.
    match goal with |- context [if ?b then _ else _] => destruct b end;
      cbn [length]; lia. }
  split; [exact Hpairs | lia].
Qed.

End ConnectionCount.

Section ParticlesOnReals.
Local Open Scope R_scope.

Lemma spawn_is_map {num : Type} `{Number num}
    (c : Canvas) (rand : nat -> num) (n : nat) :
  spawn c rand n = List.map (fun i => reset c rand (6 * i)) (seq 0 n).
Proof.
  unfold spawn.
  assert (G : forall l acc,
             fold_left (fun ps i => ps ++ [reset c rand (6 * i)]) l acc
             = acc ++ List.map (fun i => reset c rand (6 * i)) l).
  { induction l as [|i l IH]; intros acc; cbn [fold_left List.map].
    - rewrite app_nil_r. reflexivity.
    - rewrite IH, <- app_assoc. reflexivity. }
  apply G.
Qed.

(** Speed, size and opacity as [reset] draws them. *)
Lemma reset_ranges (c : Canvas) (rand : nat -> R) (k : nat) :
  (forall i, 0 <= rand i < 1) ->
  Rabs (speedX (reset c rand k)) <= 4 / 10
  /\ Rabs (speedY (reset c rand k)) <= 4 / 10
  /\ 5 / 10 <= size (reset c rand k) < 25 / 10
  /\ 1 / 10 <= opacity (reset c rand k) < 6 / 10.
Proof.
  intros Hr. unfold reset.
  cbn [speedX speedY size opacity Js.add Js.sub Js.mul Js.int Js.lit
       real_Number].
  rewrite !real_int. unfold real_lit.
  change (IZR (10 ^ Z.of_nat 1)) with 10.
  pose proof (Hr (k + 2)%nat). pose proof (Hr (k + 3)%nat).
  pose proof (Hr (k + 4)%nat). pose proof (Hr (k + 5)%nat).
  repeat split; try lra; apply Rabs_le; lra.
Qed.

Lemma update_keeps_ranges (c : Canvas) (m : Mouse) (p : Particle) :
  Rabs (speedX (update c m p)) = Rabs (speedX p)
  /\ Rabs (speedY (update c m p)) = Rabs (speedY p)
  /\ size (update c m p) = size p
  /\ opacity (update c m p) = opacity p.
Proof.
  rewrite update_is_its_steps.
  unfold update_steps, step_clamp, step_reflect.
  cbn [speedX speedY size opacity Js.mul Js.int Js.lit real_Number].
  rewrite !real_int.
  assert (Hflip : forall (b : bool) (s : R),
             Rabs (if b then s * -1 else s) = Rabs s).
  { intros [] s; [|reflexivity].
    replace (s * -1) with (- s) by ring. apply Rabs_Ropp. }
  rewrite !Hflip. repeat split.
  - unfold step_repel. destruct (pointer m) as [[mx my]|]; [|reflexivity].
    match goal with |- context [if ?b then _ else _] => destruct b end;
      reflexivity.
  - unfold step_repel. destruct (pointer m) as [[mx my]|]; [|reflexivity].
    match goal with |- context [if ?b then _ else _] => destruct b end;
      reflexivity.
  - unfold step_repel. destruct (pointer m) as [[mx my]|]; [|reflexivity].
    match goal with |- context [if ?b then _ else _] => destruct b end;
      reflexivity.
  - unfold step_repel. destruct (pointer m) as [[mx my]|]; [|reflexivity].
    match goal with |- context [if ?b then _ else _] => destruct b end;
      reflexivity.
Qed.

(** In exact arithmetic, with every draw of [Math.random()] in [[0, 1)]: the
    particles [initParticles] creates start inside the canvas, and through
    every later event (frames with or without pointer, resizes) each particle
    keeps the magnitude of both velocity components (at most 0.4), its size
    (in [[0.5, 2.5)]) and its opacity (in [[0.1, 0.6)]). *)
Theorem particles_never_speed_up
    (w : Window) (rand : nat -> R) (f : Field) (es : list Event) :
  (forall i, 0 <= rand i < 1) ->
  0 <= innerWidth w -> 0 <= innerHeight w ->
  initParticles true w rand = Some f ->
  List.Forall (fun p => in_bounds (canvas f) p = true) (particles f)
  /\ List.Forall
       (fun p => Rabs (speedX p) <= 4 / 10 /\ Rabs (speedY p) <= 4 / 10
                 /\ 5 / 10 <= size p < 25 / 10
                 /\ 1 / 10 <= opacity p < 6 / 10)
       (particles (run f es))
  /\ List.map (fun p => (Rabs (speedX p), Rabs (speedY p), size p, opacity p))
              (particles (run f es))
     = List.map (fun p => (Rabs (speedX p), Rabs (speedY p), size p, opacity p))
                (particles f).
Proof.
  intros Hr Hw Hh Hinit.
  assert (Hkeep : forall (es : list Event) (g : Field),
             List.map (fun p => (Rabs (speedX p), Rabs (speedY p), size p,
                                 opacity p))
                      (particles (run g es))
             = List.map (fun p => (Rabs (speedX p), Rabs (speedY p), size p,
                                   opacity p))
                        (particles g)).
  { clear. unfold run. induction es as [|e es IH]; intros g; cbn [fold_left];
      [reflexivity|].
    rewrite IH. destruct e; cbn [handle particles animate fst];
      try reflexivity.
    rewrite List.map_map. apply List.map_ext. intros p.
    destruct (update_keeps_ranges (canvas g) (mouse g) p)
      as (-> & -> & -> & ->).
    reflexivity. }
  assert (Hinv : forall (es : list Event) (g : Field),
             List.Forall
               (fun p => Rabs (speedX p) <= 4 / 10 /\ Rabs (speedY p) <= 4 / 10
                         /\ 5 / 10 <= size p < 25 / 10
                         /\ 1 / 10 <= opacity p < 6 / 10)
               (particles g) ->
             List.Forall
               (fun p => Rabs (speedX p) <= 4 / 10 /\ Rabs (speedY p) <= 4 / 10
                         /\ 5 / 10 <= size p < 25 / 10
                         /\ 1 / 10 <= opacity p < 6 / 10)
               (particles (run g es))).
  { clear. unfold run. induction es as [|e es IH]; intros g Hg;
      cbn [fold_left]; [exact Hg|].
    apply IH. destruct e; cbn [handle particles animate fst]; try exact Hg.
    rewrite List.Forall_forall in Hg. apply List.Forall_forall. intros q Hq.
    apply in_map_iff in Hq as (p & <- & Hp).
    destruct (update_keeps_ranges (canvas g) (mouse g) p)
      as (-> & -> & -> & ->).
    apply Hg, Hp. }
  cbn [initParticles negb] in Hinit. injection Hinit as <-.
  split; [|split; [apply Hinv|apply Hkeep]];
    cbn [particles canvas]; rewrite spawn_is_map;
    apply List.Forall_forall; intros p Hp;
    apply in_map_iff in Hp as (i & <- & _).
  - apply in_bounds_real. unfold reset, resize.
    cbn [x y width height Js.mul real_Number].
    pose proof (Hr (6 * i)%nat). pose proof (Hr (6 * i + 1)%nat).
    split; split; nra.
  - apply reset_ranges, Hr.
Qed.

(** The theorem applied to a 1024 x 768 viewport with every random draw 1/2,
    after a frame, a pointer move, a frame and a resize. *)
Lemma particles_never_speed_up_witness :
  let w := {| innerWidth := 1024; innerHeight := 768 |} in
  let rand := fun _ : nat => 1 / 2 in
  exists f : Field,
    initParticles true w rand = Some f
    /\ List.Forall
         (fun p => Rabs (speedX p) <= 4 / 10 /\ Rabs (speedY p) <= 4 / 10
                   /\ 5 / 10 <= size p < 25 / 10
                   /\ 1 / 10 <= opacity p < 6 / 10)
         (particles (run f [Frame; MouseMove 10 10; Frame; Resize w])).
Proof.
  intros w rand. eexists. split; [reflexivity|].
  apply (particles_never_speed_up w rand _
           [Frame; MouseMove 10 10; Frame; Resize w]).
  - intros i. unfold rand. lra.
  - simpl. lra.
  - simpl. lra.
  - reflexivity.
Defined.

End ParticlesOnReals.

(** ** The typing effect *)

Section TypingEffect.
Import Typing.

Lemma ticks_app (ts : list (list nat)) (a b : nat) (s : State) :
  ticks ts (a + b) s
  = match ticks ts a s with
    | None => None
    | Some (s1, d1) =>
        match ticks ts b s1 with
        | None => None
        | Some (s2, d2) => Some (s2, d1 ++ d2)
        end
    end.
Proof.
  revert s. induction a as [|a IH]; intros s; cbn [Nat.add ticks].
  - destruct (ticks ts b s) as [[s2 d2]|]; reflexivity.
  - destruct (type ts s) as [[s' d]|]; [|reflexivity].
    rewrite IH. destruct (ticks ts a s') as [[s1 d1]|]; [|reflexivity].
    destruct (ticks ts b s1) as [[s2 d2]|]; reflexivity.
Qed.

(** One tick while typing, before the last character. *)
Lemma type_types (ts : list (list nat)) (i : nat) (c : Z) (text cur : list nat) :
  nth_error ts i = Some cur ->
  (0 <= c)%Z -> (c + 1 < Z.of_nat (length cur))%Z ->
  type ts {| titleIndex := i; charIndex := c; isDeleting := false;
             textContent := text |}
  = Some ({| titleIndex := i; charIndex := c + 1; isDeleting := false;
             textContent := firstn (Z.to_nat (c + 1)) cur |}, 80%Z).
Proof.
  intros Hi Hc Hlt. unfold type, substring0.
  cbn [titleIndex charIndex isDeleting]. rewrite Hi. cbn [negb andb].
  destruct (Z.eqb_spec (c + 1) (Z.of_nat (length cur))); [lia|reflexivity].
Qed.

(** The tick that types the last character. *)
Lemma type_completes (ts : list (list nat)) (i : nat) (c : Z)
    (text cur : list nat) :
  nth_error ts i = Some cur -> (c + 1 = Z.of_nat (length cur))%Z ->
  type ts {| titleIndex := i; charIndex := c; isDeleting := false;
             textContent := text |}
  = Some ({| titleIndex := i; charIndex := Z.of_nat (length cur);
             isDeleting := true; textContent := cur |}, 2000%Z).
Proof.
  intros Hi Hc. unfold type, substring0.
  cbn [titleIndex charIndex isDeleting]. rewrite Hi. cbn [negb andb].
  rewrite Hc, Z.eqb_refl, Nat2Z.id, firstn_all. reflexivity.
Qed.

(** One tick while deleting, before the last character goes. *)
Lemma type_deletes (ts : list (list nat)) (i : nat) (c : Z)
    (text cur : list nat) :
  nth_error ts i = Some cur -> (c - 1 <> 0)%Z ->
  type ts {| titleIndex := i; charIndex := c; isDeleting := true;
             textContent := text |}
  = Some ({| titleIndex := i; charIndex := c - 1; isDeleting := true;
             textContent := firstn (Z.to_nat (c - 1)) cur |}, 40%Z).
Proof.
  intros Hi Hc. unfold type, substring0.
  cbn [titleIndex charIndex isDeleting]. rewrite Hi. cbn [negb andb].
  destruct (Z.eqb_spec (c - 1) 0); [lia|reflexivity].
Qed.

(** The tick that deletes the last character and moves to the next title. *)
Lemma type_moves_on (ts : list (list nat)) (i : nat)
    (text cur : list nat) :
  nth_error ts i = Some cur ->
  type ts {| titleIndex := i; charIndex := 1; isDeleting := true;
             textContent := text |}
  = Some ({| titleIndex := (i + 1) mod length ts; charIndex := 0;
             isDeleting := false; textContent := [] |}, 500%Z).
Proof.
  intros Hi. unfold type, substring0.
  cbn [titleIndex charIndex isDeleting]. rewrite Hi. reflexivity.
Qed.

Lemma typing_phase (ts : list (list nat)) (i : nat) (cur : list nat) (k : nat) :
  nth_error ts i = Some cur ->
  forall (c : Z) (text : list nat),
    (0 <= c)%Z -> (c + Z.of_nat (S k) < Z.of_nat (length cur))%Z ->
    ticks ts (S k) {| titleIndex := i; charIndex := c; isDeleting := false;
                      textContent := text |}
    = Some ({| titleIndex := i; charIndex := c + Z.of_nat (S k);
               isDeleting := false;
               textContent := firstn (Z.to_nat (c + Z.of_nat (S k))) cur |},
            repeat 80%Z (S k)).
Proof.
  intros Hi. induction k as [|k IH]; intros c text Hc Hlt.
  - cbn [ticks]. rewrite (type_types ts i c text cur Hi Hc) by lia.
    reflexivity.
  - change (ticks ts (S (S k)) ?s)
      with (match type ts s with
            | None => None
            | Some (s', d) =>
                match ticks ts (S k) s' with
                | None => None
                | Some (s'', ds) => Some (s'', d :: ds)
                end
            end).
    rewrite (type_types ts i c text cur Hi Hc) by lia.
    rewrite IH by lia.
    replace (c + 1 + Z.of_nat (S k))%Z with (c + Z.of_nat (S (S k)))%Z by lia.
    reflexivity.
Qed.

Lemma deleting_phase (ts : list (list nat)) (i : nat) (cur : list nat)
    (k : nat) :
  nth_error ts i = Some cur ->
  forall (c : Z) (text : list nat),
    (Z.of_nat (S k) < c)%Z ->
    ticks ts (S k) {| titleIndex := i; charIndex := c; isDeleting := true;
                      textContent := text |}
    = Some ({| titleIndex := i; charIndex := c - Z.of_nat (S k);
               isDeleting := true;
               textContent := firstn (Z.to_nat (c - Z.of_nat (S k))) cur |},
            repeat 40%Z (S k)).
Proof.
  intros Hi. induction k as [|k IH]; intros c text Hlt.
  - cbn [ticks]. rewrite (type_deletes ts i c text cur Hi) by lia.
    reflexivity.
  - change (ticks ts (S (S k)) ?s)
      with (match type ts s with
            | None => None
            | Some (s', d) =>
                match ticks ts (S k) s' with
                | None => None
                | Some (s'', ds) => Some (s'', d :: ds)
                end
            end).
    rewrite (type_deletes ts i c text cur Hi) by lia.
    rewrite IH by lia.
    replace (c - 1 - Z.of_nat (S k))%Z with (c - Z.of_nat (S (S k)))%Z by lia.
    reflexivity.
Qed.

(** Typing a whole title from nothing. *)
Lemma typing_whole (ts : list (list nat)) (i : nat) (cur text : list nat) :
  nth_error ts i = Some cur -> cur <> [] ->
  ticks ts (length cur) {| titleIndex := i; charIndex := 0;
                           isDeleting := false; textContent := text |}
  = Some ({| titleIndex := i; charIndex := Z.of_nat (length cur);
             isDeleting := true; textContent := cur |},
          repeat 80%Z (length cur - 1) ++ [2000%Z]).
Proof.
  intros Hi Hne.
  destruct (length cur) as [|[|k]] eqn:Hlen.
  - destruct cur; [congruence|discriminate].
  - cbn [ticks]. rewrite (type_completes ts i 0 text cur Hi) by lia.
    rewrite Hlen. reflexivity.
  - replace (S (S k)) with (S k + 1)%nat at 1 by lia.
    rewrite ticks_app, (typing_phase ts i cur k Hi 0 text) by lia.
    cbn [ticks]. rewrite (type_completes ts i _ _ cur Hi) by lia.
    rewrite Hlen. replace (S (S k) - 1)%nat with (S k) by lia. reflexivity.
Qed.

(** Deleting a whole title and moving on. *)
Lemma deleting_whole (ts : list (list nat)) (i : nat) (cur text : list nat) :
  nth_error ts i = Some cur -> cur <> [] ->
  ticks ts (length cur) {| titleIndex := i;
                           charIndex := Z.of_nat (length cur);
                           isDeleting := true; textContent := text |}
  = Some ({| titleIndex := (i + 1) mod length ts; charIndex := 0;
             isDeleting := false; textContent := [] |},
          repeat 40%Z (length cur - 1) ++ [500%Z]).
Proof.
  intros Hi Hne.
  destruct (length cur) as [|[|k]] eqn:Hlen.
  - destruct cur; [congruence|discriminate].
  - cbn [ticks]. change (Z.of_nat 1) with 1%Z.
    rewrite (type_moves_on ts i text cur Hi). reflexivity.
  - replace (S (S k)) with (S k + 1)%nat at 1 by lia.
    rewrite ticks_app, (deleting_phase ts i cur k Hi _ text) by lia.
    cbn [ticks].
    replace (Z.of_nat (S (S k)) - Z.of_nat (S k))%Z with 1%Z by lia.
    rewrite (type_moves_on ts i _ cur Hi).
    replace (S (S k) - 1)%nat with (S k) by lia. reflexivity.
Qed.

Lemma title_cycle
    (ts : list (list nat)) (i : nat) (cur text : list nat) :
  nth_error ts i = Some cur -> cur <> [] ->
  let s0 := {| titleIndex := i; charIndex := 0; isDeleting := false;
               textContent := text |} in
  ticks ts (length cur) s0
  = Some ({| titleIndex := i; charIndex := Z.of_nat (length cur);
             isDeleting := true; textContent := cur |},
          repeat 80%Z (length cur - 1) ++ [2000%Z])
  /\ ticks ts (2 * length cur) s0
     = Some ({| titleIndex := (i + 1) mod length ts; charIndex := 0;
                isDeleting := false; textContent := [] |},
             (repeat 80%Z (length cur - 1) ++ [2000%Z])
               ++ repeat 40%Z (length cur - 1) ++ [500%Z])
  /\ fold_right Z.add 0%Z
       ((repeat 80%Z (length cur - 1) ++ [2000%Z])
          ++ repeat 40%Z (length cur - 1) ++ [500%Z])
     = (120 * Z.of_nat (length cur) + 2380)%Z.
Proof.
  intros Hi Hne s0. split; [apply typing_whole; assumption|]. split.
  - replace (2 * length cur)%nat with (length cur + length cur)%nat by lia.
    subst s0. rewrite ticks_app, typing_whole, deleting_whole by assumption.
    reflexivity.
  - assert (Hsum : forall (v : Z) (n : nat) (rest : list Z),
               fold_right Z.add 0%Z (repeat v n ++ rest)
               = (v * Z.of_nat n + fold_right Z.add 0%Z rest)%Z).
    { intros v n rest. induction n as [|n IH]; [cbn; lia|].
      cbn [repeat app fold_right]. rewrite IH. lia. }
    assert (Hpos : (1 <= length cur)%nat)
      by (destruct cur; [congruence|cbn; lia]).
    rewrite <- app_assoc, Hsum. cbn [app fold_right]. rewrite Hsum.
    cbn [fold_right]. lia.
Qed.

(** One title, start to finish: with a non-empty title at index [i] and
    nothing typed, [length] ticks type it out (80 ms apart) and show it whole
    with a pause of 2000 ms; [length] more ticks delete it (40 ms apart) and
    select the next title, cyclically, after 500 ms. The round takes
    [120 * length + 2380] milliseconds. *)
Theorem title_is_typed_then_deleted
    (ts : list (list nat)) (i : nat) (cur text : list nat) :
  nth_error ts i = Some cur -> cur <> [] ->
  let s0 := {| titleIndex := i; charIndex := 0; isDeleting := false;
               textContent := text |} in
  ticks ts (length cur) s0
  = Some ({| titleIndex := i; charIndex := Z.of_nat (length cur);
             isDeleting := true; textContent := cur |},
          repeat 80%Z (length cur - 1) ++ [2000%Z])
  /\ ticks ts (2 * length cur) s0
     = Some ({| titleIndex := (i + 1) mod length ts; charIndex := 0;
                isDeleting := false; textContent := [] |},
             (repeat 80%Z (length cur - 1) ++ [2000%Z])
               ++ repeat 40%Z (length cur - 1) ++ [500%Z])
  /\ fold_right Z.add 0%Z
       ((repeat 80%Z (length cur - 1) ++ [2000%Z])
          ++ repeat 40%Z (length cur - 1) ++ [500%Z])
     = (120 * Z.of_nat (length cur) + 2380)%Z.
Proof. apply title_cycle. Qed.

(** The theorem applied to the third title of the script, 21 code units. *)
Lemma title_is_typed_then_deleted_witness :
  ticks titles 42 {| titleIndex := 2; charIndex := 0; isDeleting := false;
                     textContent := [] |}
  = Some ({| titleIndex := 3; charIndex := 0; isDeleting := false;
             textContent := [] |},
          (repeat 80%Z 20 ++ [2000%Z]) ++ repeat 40%Z 20 ++ [500%Z]).
Proof.
  exact (proj1 (proj2 (title_is_typed_then_deleted
                         titles 2 _ [] eq_refl ltac:(discriminate)))).
Defined.

Lemma type_step (ts : list (list nat)) (s : State) (cur : list nat) :
  List.Forall (fun t => t <> []) ts ->
  nth_error ts (titleIndex s) = Some cur ->
  (0 <= charIndex s <= Z.of_nat (length cur))%Z ->
  (isDeleting s = true -> 1 <= charIndex s)%Z ->
  (isDeleting s = false -> charIndex s < Z.of_nat (length cur))%Z ->
  exists s' d cur',
    type ts s = Some (s', d)
    /\ nth_error ts (titleIndex s') = Some cur'
    /\ (0 <= charIndex s' <= Z.of_nat (length cur'))%Z
    /\ (isDeleting s' = true -> 1 <= charIndex s')%Z
    /\ (isDeleting s' = false -> charIndex s' < Z.of_nat (length cur'))%Z
    /\ textContent s' = firstn (Z.to_nat (charIndex s')) cur'
    /\ (d = 40 \/ d = 80 \/ d = 500 \/ d = 2000)%Z.
Proof.
  intros Hall Hi Hb Hd Ht. destruct s as [i c del text].
  cbn [titleIndex charIndex isDeleting] in *. destruct del.
  - specialize (Hd eq_refl). destruct (Z.eq_dec c 1%Z) as [->|Hc1].
    + assert (Hn : (length ts <> 0)%nat).
      { apply nth_error_Some_lt in Hi || idtac.
        intros Hz. apply length_zero_iff_nil in Hz. subst ts.
        destruct i; discriminate. }
      assert (Hlt : ((i + 1) mod length ts < length ts)%nat)
        by (apply Nat.mod_upper_bound, Hn).
      destruct (nth_error ts ((i + 1) mod length ts)) as [cur'|] eqn:Hi';
        [|apply nth_error_None in Hi'; lia].
      assert (Hne : cur' <> []).
      { rewrite List.Forall_forall in Hall.
        apply Hall, (nth_error_In _ _ Hi'). }
      assert (Hpos : (1 <= length cur')%nat)
        by (destruct cur'; [congruence|cbn; lia]).
      eexists _, _, cur'. rewrite (type_moves_on ts i text cur Hi).
      split; [reflexivity|]. cbn [titleIndex charIndex isDeleting textContent].
      repeat split; try congruence; try lia; try tauto.
    + eexists _, _, cur. rewrite (type_deletes ts i c text cur Hi) by lia.
      split; [reflexivity|]. cbn [titleIndex charIndex isDeleting textContent].
      repeat split; try congruence; try lia; try tauto.
  - specialize (Ht eq_refl).
    destruct (Z.eq_dec (c + 1)%Z (Z.of_nat (length cur))) as [He|Hn].
    + eexists _, _, cur.
      rewrite (type_completes ts i c text cur Hi He).
      split; [reflexivity|]. cbn [titleIndex charIndex isDeleting textContent].
      rewrite Nat2Z.id, firstn_all.
      repeat split; try congruence; try lia; try tauto.
    + eexists _, _, cur.
      rewrite (type_types ts i c text cur Hi) by lia.
      split; [reflexivity|]. cbn [titleIndex charIndex isDeleting textContent].
      repeat split; try congruence; try lia; try tauto.
Qed.

(** With no empty title in the array, the typing effect never fails, and after
    every tick: the title index is valid, the character index lies between 0
    and the length of the current title (at least 1 while deleting, below the
    length while typing), the element shows exactly the first [charIndex] code
    units of the current title, and the next delay is 40, 80, 500 or 2000
    ms. *)
Theorem typing_shows_a_prefix_of_the_title
    (ts : list (list nat)) (text : list nat) (k : nat) :
  ts <> [] -> List.Forall (fun t => t <> []) ts ->
  exists s ds cur,
    ticks ts (S k) (start text) = Some (s, ds)
    /\ nth_error ts (titleIndex s) = Some cur
    /\ (0 <= charIndex s <= Z.of_nat (length cur))%Z
    /\ (isDeleting s = true -> 1 <= charIndex s)%Z
    /\ (isDeleting s = false -> charIndex s < Z.of_nat (length cur))%Z
    /\ textContent s = firstn (Z.to_nat (charIndex s)) cur
    /\ List.Forall (fun d => d = 40 \/ d = 80 \/ d = 500 \/ d = 2000)%Z ds.
Proof.
  intros Hne Hall.
  assert (Hgen : forall (k : nat) (s : State) (cur : list nat),
             nth_error ts (titleIndex s) = Some cur ->
             (0 <= charIndex s <= Z.of_nat (length cur))%Z ->
             (isDeleting s = true -> 1 <= charIndex s)%Z ->
             (isDeleting s = false -> charIndex s < Z.of_nat (length cur))%Z ->
             exists s' ds cur',
               ticks ts (S k) s = Some (s', ds)
               /\ nth_error ts (titleIndex s') = Some cur'
               /\ (0 <= charIndex s' <= Z.of_nat (length cur'))%Z
               /\ (isDeleting s' = true -> 1 <= charIndex s')%Z
               /\ (isDeleting s' = false
                   -> charIndex s' < Z.of_nat (length cur'))%Z
               /\ textContent s' = firstn (Z.to_nat (charIndex s')) cur'
               /\ List.Forall
                    (fun d => d = 40 \/ d = 80 \/ d = 500 \/ d = 2000)%Z ds).
  { clear k. induction k as [|k IH]; intros s cur Hi Hb Hd Ht;
      destruct (type_step ts s cur Hall Hi Hb Hd Ht)
        as (s1 & d & cur1 & Hty & Hi1 & Hb1 & Hd1 & Ht1 & Htx1 & Hok).
    - exists s1, [d], cur1. cbn [ticks]. rewrite Hty.
      repeat split; try assumption; try tauto;
        constructor; [exact Hok|constructor].
    - destruct (IH s1 cur1 Hi1 Hb1 Hd1 Ht1)
        as (s2 & ds & cur2 & Htk & Hrest).
      exists s2, (d :: ds), cur2.
      change (ticks ts (S (S k)) s)
        with (match type ts s with
              | None => None
              | Some (s', d) =>
                  match ticks ts (S k) s' with
                  | None => None
                  | Some (s'', ds) => Some (s'', d :: ds)
                  end
              end).
      rewrite Hty, Htk. split; [reflexivity|].
      destruct Hrest as (? & ? & ? & ? & ? & ?).
      repeat split; try assumption; try tauto;
        constructor; assumption. }
  destruct ts as [|t0 ts']; [congruence|].
  assert (Ht0 : t0 <> []) by (inversion Hall; assumption).
  apply (Hgen k (start text) t0); cbn [start titleIndex charIndex isDeleting];
    try reflexivity; try lia; try discriminate.
  intros _. destruct t0; [congruence|cbn; lia].
Qed.

(** The theorem applied to the titles of the script, 100 ticks in. *)
Lemma typing_shows_a_prefix_of_the_title_witness :
  exists s ds cur,
    ticks titles 100 (start []) = Some (s, ds)
    /\ nth_error titles (titleIndex s) = Some cur
    /\ textContent s = firstn (Z.to_nat (charIndex s)) cur.
Proof.
  assert (Hall : List.Forall (fun t : list nat => t <> []) titles)
    by (repeat constructor; discriminate).
  destruct (typing_shows_a_prefix_of_the_title
              titles [] 99 ltac:(discriminate) Hall)
    as (s & ds & cur & Htk & Hi & _ & _ & _ & Htx & _).
  exists s, ds, cur. repeat split; assumption.
Defined.

Lemma cycle_from (ts : list (list nat)) (m : nat) :
  List.Forall (fun t => t <> []) ts ->
  forall (j : nat) (text : list nat),
    (j + S m = length ts)%nat ->
    exists ds,
      ticks ts (2 * list_sum (List.map (@length nat) (skipn j ts)))
            {| titleIndex := j; charIndex := 0; isDeleting := false;
               textContent := text |}
      = Some (start [], ds)
      /\ fold_right Z.add 0%Z ds
         = (120 * Z.of_nat (list_sum (List.map (@length nat) (skipn j ts)))
            + 2380 * Z.of_nat (S m))%Z.
Proof.
  intros Hall. induction m as [|m IH]; intros j text Hj.
  - destruct (nth_error ts j) as [cur|] eqn:Hi;
      [|apply nth_error_None in Hi; lia].
    assert (Hne : cur <> []).
    { rewrite List.Forall_forall in Hall. apply Hall, (nth_error_In _ _ Hi). }
    assert (Hskip : skipn j ts = [cur]).
    { apply nth_error_split in Hi as (l1 & l2 & -> & <-).
      rewrite skipn_app, skipn_all, Nat.sub_diag. cbn [app skipn].
      rewrite length_app in Hj. cbn [length] in Hj.
      destruct l2; [reflexivity|cbn [length] in Hj; lia]. }
    rewrite Hskip.
    change (list_sum (List.map (@length nat) [cur])) with (length cur + 0)%nat.
    rewrite Nat.add_0_r.
    destruct (title_cycle ts j cur text Hi Hne) as (_ & Hc & Hs).
    eexists. rewrite Hc. split.
    + replace ((j + 1) mod length ts)%nat with 0%nat; [reflexivity|].
      rewrite <- Hj, Nat.Div0.mod_same. reflexivity.
    + rewrite Hs. lia.
  - destruct (nth_error ts j) as [cur|] eqn:Hi;
      [|apply nth_error_None in Hi; lia].
    assert (Hne : cur <> []).
    { rewrite List.Forall_forall in Hall. apply Hall, (nth_error_In _ _ Hi). }
    assert (Hskip : skipn j ts = cur :: skipn (S j) ts).
    { apply nth_error_split in Hi as (l1 & l2 & -> & <-).
      rewrite !skipn_app, skipn_all, Nat.sub_diag.
      replace (S (length l1) - length l1)%nat with 1%nat by lia.
      rewrite (skipn_all2 l1) by lia. reflexivity. }
    rewrite Hskip.
    change (list_sum (List.map (@length nat) (cur :: skipn (S j) ts)))
      with (length cur + list_sum (List.map (@length nat) (skipn (S j) ts)))%nat.
    destruct (title_cycle ts j cur text Hi Hne) as (_ & Hc & Hs).
    destruct (IH (S j) [] ltac:(lia)) as (ds & Htk & Hsum).
    replace (2 * (length cur + list_sum (List.map (@length nat)
                                           (skipn (S j) ts))))%nat
      with (2 * length cur
            + 2 * list_sum (List.map (@length nat) (skipn (S j) ts)))%nat
      by lia.
    rewrite ticks_app, Hc.
    replace ((j + 1) mod length ts)%nat with (S j)
      by (rewrite Nat.mod_small by lia; lia).
    rewrite Htk. eexists. split; [reflexivity|].
    rewrite fold_right_app.
    assert (Hshift : forall (l : list Z) (z : Z),
               fold_right Z.add z l = (fold_right Z.add 0 l + z)%Z).
    { induction l as [|a l IHl]; intros z; cbn [fold_right]; [lia|].
      rewrite IHl. lia. }
    rewrite Hshift, Hs, Hsum. lia.
Qed.

(** The effect is periodic. With no empty title in the array, after twice as
    many ticks as the titles have code units the effect is back where it
    started: first title, nothing typed, typing. A period lasts
    [120 * units + 2380 * titles] milliseconds. *)
Theorem typing_is_periodic (ts : list (list nat)) (text : list nat) :
  ts <> [] -> List.Forall (fun t => t <> []) ts ->
  exists ds,
    ticks ts (2 * list_sum (List.map (@length nat) ts)) (start text)
    = Some (start [], ds)
    /\ fold_right Z.add 0%Z ds
       = (120 * Z.of_nat (list_sum (List.map (@length nat) ts))
          + 2380 * Z.of_nat (length ts))%Z.
Proof.
  intros Hne Hall.
  destruct (length ts) as [|m] eqn:Hlen;
    [apply length_zero_iff_nil in Hlen; congruence|].
  destruct (cycle_from ts m Hall 0 text ltac:(lia)) as (ds & Htk & Hsum).
  exists ds. split; [exact Htk | exact Hsum].
Qed.

(** The theorem applied to the titles of the script: 180 ticks, 22.7 s. *)
Lemma typing_is_periodic_witness :
  exists ds,
    ticks titles 180 (start []) = Some (start [], ds)
    /\ fold_right Z.add 0%Z ds = 22700%Z.
Proof.
  assert (Hall : List.Forall (fun t : list nat => t <> []) titles)
    by (repeat constructor; discriminate).
  exact (typing_is_periodic titles [] ltac:(discriminate) Hall).
Defined.

End TypingEffect.

(** ** The cursor glow and the magnetic buttons *)

Section GlowOnReals.
Local Open Scope R_scope.
Import Glow.

Lemma updateGlow_real (s : State) :
  glowX (updateGlow s) = glowX s /\ glowY (updateGlow s) = glowY s
  /\ glowX s - currentX (updateGlow s) = 9 / 10 * (glowX s - currentX s)
  /\ glowY s - currentY (updateGlow s) = 9 / 10 * (glowY s - currentY s).
Proof.
  unfold updateGlow.
  cbn [glowX glowY currentX currentY Js.add Js.sub Js.mul Js.lit real_Number].
  unfold real_lit. change (IZR (10 ^ Z.of_nat 1)) with 10.
  repeat split; lra.
Qed.

(** In exact arithmetic, while the pointer rests, every frame leaves the glow
    nine tenths of the way it still had to go, in both directions: after [n]
    frames the remaining offset is [(9/10)^n] times the initial one, so the
    glow approaches the pointer without ever passing it. *)
Theorem glow_closes_a_tenth_per_frame (s : State) (n : nat) :
  let sn := Nat.iter n updateGlow s in
  glowX sn = glowX s /\ glowY sn = glowY s
  /\ glowX s - currentX sn = (9 / 10) ^ n * (glowX s - currentX s)
  /\ glowY s - currentY sn = (9 / 10) ^ n * (glowY s - currentY s)
  /\ Rabs (glowX s - currentX sn) <= Rabs (glowX s - currentX s)
  /\ Rabs (glowY s - currentY sn) <= Rabs (glowY s - currentY s).
Proof.
  cbv zeta.
  assert (Hn : glowX (Nat.iter n updateGlow s) = glowX s
               /\ glowY (Nat.iter n updateGlow s) = glowY s
               /\ glowX s - currentX (Nat.iter n updateGlow s)
                  = (9 / 10) ^ n * (glowX s - currentX s)
               /\ glowY s - currentY (Nat.iter n updateGlow s)
                  = (9 / 10) ^ n * (glowY s - currentY s)).
  { induction n as [|n (Hx & Hy & Hcx & Hcy)]; cbn [Nat.iter nat_rect pow].
    - repeat split; lra.
    - destruct (updateGlow_real (Nat.iter n updateGlow s))
        as (Gx & Gy & Cx & Cy).
      rewrite Hx in Gx, Cx. rewrite Hy in Gy, Cy.
      change (nat_rect (fun _ => State) s (fun _ => updateGlow) n)
        with (Nat.iter n updateGlow s).
      repeat split; try assumption.
      + rewrite Cx, Hcx. ring.
      + rewrite Cy, Hcy. ring. }
  destruct Hn as (Hx & Hy & Hcx & Hcy).
  assert (Hpow : 0 <= (9 / 10) ^ n <= 1).
  { split; [apply pow_le; lra|].
    rewrite <- (pow1 n). apply pow_incr. lra. }
  repeat split; try assumption.
  - rewrite Hcx, Rabs_mult, (Rabs_pos_eq _ (proj1 Hpow)).
    pose proof (Rabs_pos (glowX s - currentX s)). nra.
  - rewrite Hcy, Rabs_mult, (Rabs_pos_eq _ (proj1 Hpow)).
    pose proof (Rabs_pos (glowY s - currentY s)). nra.
Qed.



End GlowOnReals.

(** ** The navigation bar *)

Section NavbarProperties.
Import Navbar.
Context {num : Type} `{Number num}.

Lemma handle_in_step (sections : list PageSection)
    (query : option String.string -> Query) (s : State) (e : Event) :
  hamburger_open s = navLinks_open s ->
  hamburger_open (handle sections query s e)
  = navLinks_open (handle sections query s e).
Proof.
  intros Hs. destruct e as [y| |i]; cbn [handle hamburger_open navLinks_open].
  - exact Hs.
  - rewrite Hs. reflexivity.
  - destruct (nth_error (links s) i) as [link|]; [|exact Hs].
    destruct (query (href link)); cbn [hamburger_open navLinks_open];
      auto.
Qed.

(** The menu button and the menu stay in step. Starting with both open or
    both closed, after any sequence of scrolls, menu-button clicks and link
    clicks the button carries [open] exactly when the menu does; [n] further
    clicks on the button flip both [n] times; a click on a link whose [href] is
    a valid selector closes both; and a click on a link whose [href] is not a
    valid selector changes nothing, so an open menu stays open. *)
Theorem menu_button_and_menu_stay_in_step
    (sections : list PageSection) (query : option String.string -> Query)
    (s : State) (es : list Event) :
  hamburger_open s = navLinks_open s ->
  let s' := run sections query s es in
  hamburger_open s' = navLinks_open s'
  /\ (forall n,
        hamburger_open (run sections query s' (repeat HamburgerClick n))
        = xorb (hamburger_open s') (Nat.odd n))
  /\ (forall i link,
        nth_error (links s') i = Some link ->
        (query (href link) <> InvalidSelector ->
         hamburger_open (handle sections query s' (LinkClick i)) = false
         /\ navLinks_open (handle sections query s' (LinkClick i)) = false)
        /\ (query (href link) = InvalidSelector ->
            handle sections query s' (LinkClick i) = s')).
Proof.
  intros Hs s'.
  assert (Hstep : hamburger_open s' = navLinks_open s').
  { subst s'. unfold run. revert s Hs.
    induction es as [|e es IH]; intros s Hs; cbn [fold_left]; [exact Hs|].
    apply IH, handle_in_step, Hs. }
  split; [exact Hstep|]. split.
  - clearbody s'. clear Hs s. intros n. unfold run. revert s' Hstep.
    induction n as [|n IH]; intros s Hs; cbn [repeat fold_left].
    + destruct (hamburger_open s); reflexivity.
    + rewrite IH by (apply handle_in_step, Hs).
      cbn [handle hamburger_open]. rewrite Nat.odd_succ, <- Nat.negb_odd.
      destruct (hamburger_open s), (Nat.odd n); reflexivity.
  - intros i link Hi. cbn [handle]. rewrite Hi. split.
    + intros Hq. destruct (query (href link)); try congruence;
        split; reflexivity.
    + intros ->. reflexivity.
Qed.

Lemma current_section_unreached (sections : list PageSection) (y : num)
    (current : option String.string) :
  List.Forall (fun sec => Js.leb (Js.sub (offsetTop sec) (Js.int 100)) y = false)
              sections ->
  fold_left (fun current section =>
               if Js.leb (Js.sub (offsetTop section) (Js.int 100)) y
               then section_id section else current)
            sections current
  = current.
Proof.
  intros Hall. revert current.
  induction Hall as [|sec l Hsec _ IH]; intros current; cbn [fold_left];
    [reflexivity|].
  rewrite Hsec. apply IH.
Qed.

Lemma strict_equal_same (d1 d2 current : option String.string) :
  strict_equal d1 current = true -> strict_equal d2 current = true -> d1 = d2.
Proof.
  destruct d1 as [a|], d2 as [b|], current as [c|]; cbn; try discriminate.
  intros Ha Hb. apply String.eqb_eq in Ha, Hb. congruence.
Qed.

Lemma at_most_one_active (current : option String.string) (l : list Link) :
  List.NoDup (List.map data_section l) ->
  (length (List.filter link_active (List.map (set_active current) l)) <= 1)%nat.
Proof.
  induction l as [|a l IH]; intros Hnd; cbn [List.map List.filter];
    [cbn; lia|].
  inversion Hnd as [|d ds Hnot Hnd']; subst.
  cbn [set_active link_active].
  destruct (strict_equal (data_section a) current) eqn:Ha; [|apply IH, Hnd'].
  cbn [length].
  assert (Hnone : List.filter link_active (List.map (set_active current) l)
                  = []).
  { clear IH Hnd Hnd'. induction l as [|b l IHl]; [reflexivity|].
    cbn [List.map List.filter set_active link_active].
    destruct (strict_equal (data_section b) current) eqn:Hb.
    - exfalso. apply Hnot. left.
      symmetry. exact (strict_equal_same _ _ _ Ha Hb).
    - apply IHl. intros Hin. apply Hnot. right. exact Hin. }
  rewrite Hnone. cbn. lia.
Qed.

(** The active link follows the scroll position. After a scroll event the
    current section is the last one, in document order, whose top minus 100 is
    at most [scrollY], and the empty string when there is none; a link is
    active exactly when its [data-section] is the current section; and when no
    two links share a [data-section], at most one link is active. *)
Theorem active_link_is_the_last_section_reached
    (before after : list PageSection) (sec : PageSection) (y : num) :
  Js.leb (Js.sub (offsetTop sec) (Js.int 100)) y = true ->
  List.Forall (fun later =>
                 Js.leb (Js.sub (offsetTop later) (Js.int 100)) y = false)
              after ->
  current_section (before ++ sec :: after) y = section_id sec
  /\ current_section after y = Some String.EmptyString
  /\ (forall (sections : list PageSection)
             (query : option String.string -> Query) (s : State),
        let s' := handle sections query s (Scroll y) in
        List.map link_active (links s')
        = List.map (fun l => strict_equal (data_section l)
                                          (current_section sections y))
                   (links s)
        /\ (List.NoDup (List.map data_section (links s)) ->
            (length (List.filter link_active (links s')) <= 1)%nat)).
Proof.
  intros Hsec Hafter. split; [|split].
  - unfold current_section. rewrite fold_left_app. cbn [fold_left].
    rewrite Hsec. apply current_section_unreached, Hafter.
  - apply current_section_unreached, Hafter.
  - intros sections query s s'. subst s'. cbn [handle links]. split.
    + rewrite List.map_map. reflexivity.
    + apply at_most_one_active.
Qed.

End NavbarProperties.

Section NavbarSample.
Import Navbar.
Import Stdlib.Strings.String.
Local Open Scope float_scope.

(** The theorem applied to the sample menu, opened, then a click on the link
    to [#about]. *)
Lemma menu_button_and_menu_stay_in_step_witness :
  let s' := run PageSamples.sections PageSamples.query
                PageSamples.closed_menu [HamburgerClick] in
  hamburger_open s' = true
  /\ hamburger_open (handle PageSamples.sections PageSamples.query s'
                            (LinkClick 1))
     = false.
Proof.
  intros s'. split; [reflexivity|].
  apply (proj2 (proj2 (menu_button_and_menu_stay_in_step
                         PageSamples.sections PageSamples.query
                         PageSamples.closed_menu [HamburgerClick] eq_refl))
               1%nat (PageSamples.link_to "about"%string) eq_refl).
  discriminate.
Defined.


(** The theorem applied to the sample page scrolled to 900 pixels: the second
    section is current and only its link is active. *)
Lemma active_link_is_the_last_section_reached_witness :
  current_section PageSamples.sections 900
  = Some "about"%string
  /\ List.map link_active
       (links (handle PageSamples.sections PageSamples.query
                      PageSamples.closed_menu (Scroll 900)))
     = [false; true; false].
Proof.
  destruct (active_link_is_the_last_section_reached (num := float)
              [{| offsetTop := 0; section_id := Some "hero"%string |}]
              [{| offsetTop := 1600; section_id := Some "contact"%string |}]
              {| offsetTop := 800; section_id := Some "about"%string |}
              900)
    as (Hcur & _ & Hlinks).
  { vm_compute. reflexivity. }
  { repeat constructor. }
  split; [exact Hcur|].
  exact (proj1 (Hlinks PageSamples.sections PageSamples.query
                       PageSamples.closed_menu)).
Defined.

End NavbarSample.

(** ** The modal of the 3D room *)

Section ModalProperties.
Import Room Modal.






End ModalProperties.

(** ** Start-up *)

Section PageProperties.
Import Page.

Lemma sequence_from (fs : list (Document -> Outcome)) (d : Document)
    (acc : Outcome) :
  fold_left (fun acc f =>
               if threw acc then acc
               else {| started := started acc ++ started (f d);
                       threw := threw (f d) |})
            fs acc
  = if threw acc then acc
    else {| started := started acc ++ started (sequence fs d);
            threw := threw (sequence fs d) |}.
Proof.
  revert acc. induction fs as [|f fs IH]; intros acc.
  - cbn. destruct acc as [l [|]]; cbn; [reflexivity|].
    rewrite app_nil_r. reflexivity.
  - unfold sequence. cbn [fold_left]. rewrite !IH. cbn [threw started done].
    destruct acc as [l [|]]; cbn [threw started]; [reflexivity|].
    destruct (threw (f d)); cbn [threw started]; [reflexivity|].
    rewrite <- app_assoc. reflexivity.
Qed.

Lemma sequence_cons (f : Document -> Outcome)
    (fs : list (Document -> Outcome)) (d : Document) :
  started (sequence (f :: fs) d)
  = started (f d) ++ (if threw (f d) then [] else started (sequence fs d))
  /\ threw (sequence (f :: fs) d)
     = (if threw (f d) then true else threw (sequence fs d)).
Proof.
  unfold sequence at 1 3. cbn [fold_left]. rewrite sequence_from.
  cbn [threw started done app]. destruct (threw (f d)) eqn:E.
  - rewrite app_nil_r. split; reflexivity.
  - split; reflexivity.
Qed.

Lemma startup_closed_form (d : Document) :
  started (onDOMContentLoaded d)
  = started (initParticles d) ++ started (initCursorGlow d)
    ++ (if hamburger d then
          [NavScrollBackground; NavHamburgerClick; NavLinkClicks;
           NavActiveLink; HeroTimeline]
          ++ started (initTypingEffect d)
          ++ [CounterTriggers; ScrollReveals]
          ++ started (initTimelineFill d)
          ++ started (initMagneticButtons d)
          ++ started (init3DRoomModal d)
        else [NavScrollBackground])
  /\ threw (onDOMContentLoaded d)
     = (if hamburger d then threw (init3DRoomModal d) else true).
Proof.
  assert (T1 : threw (initParticles d) = false)
    by (unfold initParticles; destruct (particlesCanvas d); reflexivity).
  assert (T2 : threw (initCursorGlow d) = false)
    by (unfold initCursorGlow; destruct (innerWidth d <? 768)%Z;
        [reflexivity|]; destruct (cursorGlow d); reflexivity).
  assert (T3 : threw (initTypingEffect d) = false)
    by (unfold initTypingEffect; destruct (heroTitle d); reflexivity).
  assert (T4 : threw (initTimelineFill d) = false)
    by (unfold initTimelineFill; destruct (timelineFill d); reflexivity).
  assert (T5 : threw (initMagneticButtons d) = false)
    by (unfold initMagneticButtons; destruct (innerWidth d <? 768)%Z;
        reflexivity).
  unfold onDOMContentLoaded.
  repeat match goal with
         | |- context [sequence (?f :: ?fs) d] =>
             let Hs := fresh "Hs" in
             let Ht := fresh "Ht" in
             destruct (sequence_cons f fs d) as [Hs Ht];
             rewrite ?Hs, ?Ht; clear Hs Ht
         end.
  rewrite T1, T2, T3, T4, T5.
  change (threw (initHeroAnimations d)) with false.
  change (threw (initCounters d)) with false.
  change (threw (initScrollReveals d)) with false.
  change (started (initHeroAnimations d)) with [HeroTimeline].
  change (started (initCounters d)) with [CounterTriggers].
  change (started (initScrollReveals d)) with [ScrollReveals].
  change (sequence [] d) with (done []). cbn [started threw done].
  unfold initNavbar. destruct (hamburger d); cbn [negb started threw done failed].
  - destruct (threw (init3DRoomModal d)); rewrite ?app_nil_r;
      (split; [|reflexivity]); cbn [app]; reflexivity.
  - split; reflexivity.
Qed.

Ltac page_cases d :=
  destruct (startup_closed_form d) as [Hstarted Hthrew];
  rewrite ?Hstarted, ?Hthrew; clear Hstarted Hthrew;
  destruct d as [pc cg hb ht tf o3 c3 m3 ov iw];
  unfold initParticles, initCursorGlow, initTypingEffect, initTimelineFill,
    initMagneticButtons, init3DRoomModal;
  cbn [particlesCanvas cursorGlow hamburger heroTitle timelineFill
       open3DRoom close3DRoom room3dModal room3dOverlay innerWidth];
  destruct (iw <? 768)%Z.

Ltac not_among H :=
  repeat (destruct H as [H|H]; [discriminate H|]); exact H.

Ltac among := repeat (first [reflexivity | left; reflexivity | right]).

(** Start-up fails exactly on two kinds of page. The [DOMContentLoaded]
    listener ends in a [TypeError] exactly when the page has no [#hamburger],
    or has [#open3DRoom] and [#room3dModal] but lacks [#close3DRoom] or
    [#room3dOverlay]; a missing canvas, glow, hero title, timeline fill, open
    button or modal is skipped silently. The modal's key listener, the last
    thing start-up registers, is in place exactly when nothing was thrown and
    the open button and the modal exist. *)
Theorem startup_throws_exactly_on_missing_menu_or_modal_parts (d : Document) :
  threw (onDOMContentLoaded d)
  = negb (hamburger d)
    || (open3DRoom d && room3dModal d
        && negb (close3DRoom d && room3dOverlay d))
  /\ (In ModalKeydown (started (onDOMContentLoaded d))
      <-> threw (onDOMContentLoaded d) = false
          /\ open3DRoom d = true /\ room3dModal d = true).
Proof.
  page_cases d;
    destruct pc, cg, hb, ht, tf, o3, c3, m3, ov;
    vm_compute;
    (split; [reflexivity|]);
    (split;
     [ intros Hin;
       first [ repeat split; reflexivity | exfalso; not_among Hin ]
     | intros (H1 & H2 & H3);
       first [ discriminate H1 | discriminate H2 | discriminate H3 | among ]
     ]).
Qed.

(** A page without its menu button starts almost nothing. When [#hamburger]
    is missing, [initNavbar] throws after registering its first scroll
    listener, so only the particle loop, the cursor glow and that listener can
    be running: the hero animation, the typing effect, the counters, the
    scroll reveals, the timeline, the magnetic buttons and the modal are never
    set up, whatever else the page contains. *)
Theorem missing_menu_button_stops_startup (d : Document) :
  hamburger d = false ->
  threw (onDOMContentLoaded d) = true
  /\ started (onDOMContentLoaded d)
     = started (initParticles d) ++ started (initCursorGlow d)
       ++ [NavScrollBackground]
  /\ forall x, In x (started (onDOMContentLoaded d)) ->
               x = ParticleLoop \/ x = GlowLoop \/ x = NavScrollBackground.
Proof.
  intros Hh.
  page_cases d; cbn [hamburger] in Hh; subst hb;
    destruct pc, cg; vm_compute;
    (split; [reflexivity|]); (split; [reflexivity|]);
    intros x Hin;
    repeat (destruct Hin as [Hin|Hin]; [subst x; among|]);
    destruct Hin.
Qed.

(** The theorem applied to the sample page without its menu button. *)
Lemma missing_menu_button_stops_startup_witness :
  threw (onDOMContentLoaded PageSamples.page_without_hamburger) = true
  /\ started (onDOMContentLoaded PageSamples.page_without_hamburger)
     = [ParticleLoop; GlowLoop; NavScrollBackground].
Proof.
  destruct (missing_menu_button_stops_startup
              PageSamples.page_without_hamburger eq_refl) as (H1 & H2 & _).
  split; [exact H1 | exact H2].
Defined.

End PageProperties.
